(** * headview3d: the player model and its animations

    A shallow embedding of [src/model.ts] (the UV mapper, [SkinObject],
    [EarsObject], [PlayerObject]) and of the animation classes
    ([PlayerAnimation] and its subclasses).

    Conventions of the embedding.
    - A JavaScript [number] is a real number ([R]): [+], [*], [/] are the
      field operations, [Math.sin], [Math.cos] and [Math.PI] are [sin], [cos]
      and [PI].  IEEE rounding, NaN and the infinities are outside the model.
    - A mutable object is a record; a method that mutates [this] (or an
      argument) returns the updated record.
    - A closure whose body is not part of the repository (a model listener)
      is a handle; invoking it is recorded as a [Call] event. *)

From Stdlib Require Import String.
From Stdlib Require Import Reals Lra List Bool Arith Lia.
Import ListNotations.

Open Scope R_scope.

(** ** The part of three.js the model relies on *)

Module Three.

Record Vector2 := mkVector2 { v2_x : R; v2_y : R }.

Record Vector3 := mkVector3 { x : R; y : R; z : R }.

(** [Euler]: the rotation of an [Object3D] (the rotation order is never
    changed by the model and is left out). *)
Record Euler := mkEuler { ex : R; ey : R; ez : R }.

(** [Euler.set(x, y, z)] *)
Definition Euler_set (_ : Euler) (x y z : R) : Euler := mkEuler x y z.

Record Object3D := mkObject3D {
  name : string;
  position : Vector3;
  rotation : Euler;
  visible : bool
}.

(** [new Object3D()]: empty name, origin, no rotation, visible. *)
Definition Object3D_new : Object3D :=
  mkObject3D EmptyString (mkVector3 0 0 0) (mkEuler 0 0 0) true.

Definition set_name (o : Object3D) (n : string) : Object3D :=
  mkObject3D n (position o) (rotation o) (visible o).
Definition set_position (o : Object3D) (p : Vector3) : Object3D :=
  mkObject3D (name o) p (rotation o) (visible o).
Definition set_rotation (o : Object3D) (r : Euler) : Object3D :=
  mkObject3D (name o) (position o) r (visible o).
Definition set_visible (o : Object3D) (b : bool) : Object3D :=
  mkObject3D (name o) (position o) (rotation o) b.

Definition set_position_x (o : Object3D) (v : R) : Object3D :=
  set_position o (mkVector3 v (y (position o)) (z (position o))).
Definition set_position_y (o : Object3D) (v : R) : Object3D :=
  set_position o (mkVector3 (x (position o)) v (z (position o))).
Definition set_position_z (o : Object3D) (v : R) : Object3D :=
  set_position o (mkVector3 (x (position o)) (y (position o)) v).

Definition set_rotation_x (o : Object3D) (v : R) : Object3D :=
  set_rotation o (mkEuler v (ey (rotation o)) (ez (rotation o))).
Definition set_rotation_y (o : Object3D) (v : R) : Object3D :=
  set_rotation o (mkEuler (ex (rotation o)) v (ez (rotation o))).
Definition set_rotation_z (o : Object3D) (v : R) : Object3D :=
  set_rotation o (mkEuler (ex (rotation o)) (ey (rotation o)) v).

(** A texture is an opaque handle. *)
Inductive Texture := TextureRef (id : nat).

Inductive Side := FrontSide | BackSide | DoubleSide.

(** [MeshStandardMaterial], with the properties the model reads or writes.
    [needsUpdate] is the re-upload request: the last value written to it. *)
Record MeshStandardMaterial := mkMaterial {
  side : Side;
  transparent : bool;
  alphaTest : R;
  polygonOffset : bool;
  polygonOffsetFactor : R;
  polygonOffsetUnits : R;
  map : option Texture;
  needsUpdate : bool
}.

(** [new MeshStandardMaterial({side, transparent, alphaTest})] *)
Definition MeshStandardMaterial_new (s : Side) (tr : bool) (at_ : R)
  : MeshStandardMaterial :=
  mkMaterial s tr at_ false 0 0 None false.

(** [material.clone()]: a fresh object with the same properties. *)
Definition clone (m : MeshStandardMaterial) : MeshStandardMaterial := m.

Definition set_polygonOffset (m : MeshStandardMaterial) (b : bool) (f u : R) :=
  mkMaterial (side m) (transparent m) (alphaTest m) b f u (map m) (needsUpdate m).
Definition set_map (m : MeshStandardMaterial) (t : option Texture) :=
  mkMaterial (side m) (transparent m) (alphaTest m) (polygonOffset m)
             (polygonOffsetFactor m) (polygonOffsetUnits m) t (needsUpdate m).
Definition set_needsUpdate (m : MeshStandardMaterial) (b : bool) :=
  mkMaterial (side m) (transparent m) (alphaTest m) (polygonOffset m)
             (polygonOffsetFactor m) (polygonOffsetUnits m) (map m) b.

(** [BufferAttribute]: a flat array of numbers and its re-upload flag. *)
Record BufferAttribute := mkBufferAttribute {
  array : list R;
  attr_needsUpdate : bool
}.

(** [attr.set(values)]: copies [values] over the array from index 0 (the
    array keeps its length, so [values] must fit). *)
Definition BufferAttribute_set (a : BufferAttribute) (values : list R)
  : BufferAttribute :=
  mkBufferAttribute (values ++ skipn (length values) (array a))
                    (attr_needsUpdate a).

Definition set_attr_needsUpdate (a : BufferAttribute) (b : bool) :=
  mkBufferAttribute (array a) b.

(** [BoxGeometry]: six faces of four vertices, two uv numbers per vertex.
    A fresh box maps every face onto the whole texture. *)
Record BoxGeometry := mkBoxGeometry {
  box_width : R; box_height : R; box_depth : R;
  uv : BufferAttribute
}.

Definition default_face_uv : list R := [0; 1; 1; 1; 0; 0; 1; 0].

Definition BoxGeometry_new (w h d : R) : BoxGeometry :=
  mkBoxGeometry w h d
    (mkBufferAttribute
       (concat (repeat default_face_uv 6)) false).

Definition set_uv (b : BoxGeometry) (a : BufferAttribute) : BoxGeometry :=
  mkBoxGeometry (box_width b) (box_height b) (box_depth b) a.

End Three.

Import Three.

(** ** The UV mapper *)

(** The arrow function [toFaceVertices] of [setUVs]. *)
Definition toFaceVertices (textureWidth textureHeight x1 y1 x2 y2 : R)
  : list Vector2 :=
  [ mkVector2 (x1 / textureWidth) (1 - y2 / textureHeight);
    mkVector2 (x2 / textureWidth) (1 - y2 / textureHeight);
    mkVector2 (x2 / textureWidth) (1 - y1 / textureHeight);
    mkVector2 (x1 / textureWidth) (1 - y1 / textureHeight) ].

(** [a[i]] on a four-element corner array. *)
Definition at_ (a : list Vector2) (i : nat) : Vector2 :=
  nth i a (mkVector2 0 0).

(** The inner loop of [setUVs]: [newUVData.push(uv.x, uv.y)]. *)
Fixpoint push_uvs (newUVData : list R) (uvArray : list Vector2) : list R :=
  match uvArray with
  | [] => newUVData
  | uv :: rest => push_uvs (newUVData ++ [v2_x uv; v2_y uv]) rest
  end.

(** The outer loop. *)
Fixpoint push_faces (newUVData : list R) (faces : list (list Vector2)) : list R :=
  match faces with
  | [] => newUVData
  | uvArray :: rest => push_faces (push_uvs newUVData uvArray) rest
  end.

(** [newUVData] as [setUVs] builds it. *)
Definition newUVData (u v width height depth textureWidth textureHeight : R)
  : list R :=
  let tfv := toFaceVertices textureWidth textureHeight in
  let top := tfv (u + depth) v (u + width + depth) (v + depth) in
  let bottom := tfv (u + width + depth) v (u + width * 2 + depth) (v + depth) in
  let left := tfv u (v + depth) (u + depth) (v + depth + height) in
  let front := tfv (u + depth) (v + depth) (u + width + depth) (v + depth + height) in
  let right := tfv (u + width + depth) (v + depth) (u + width + depth * 2) (v + height + depth) in
  let back := tfv (u + width + depth * 2) (v + depth) (u + width * 2 + depth * 2) (v + height + depth) in
  let uvRight := [at_ right 3; at_ right 2; at_ right 0; at_ right 1] in
  let uvLeft := [at_ left 3; at_ left 2; at_ left 0; at_ left 1] in
  let uvTop := [at_ top 3; at_ top 2; at_ top 0; at_ top 1] in
  let uvBottom := [at_ bottom 0; at_ bottom 1; at_ bottom 3; at_ bottom 2] in
  let uvFront := [at_ front 3; at_ front 2; at_ front 0; at_ front 1] in
  let uvBack := [at_ back 3; at_ back 2; at_ back 0; at_ back 1] in
  push_faces [] [uvRight; uvLeft; uvTop; uvBottom; uvFront; uvBack].

Definition setUVs (box : BoxGeometry)
  (u v width height depth textureWidth textureHeight : R) : BoxGeometry :=
  let uvAttr := Three.uv box in
  let uvAttr := BufferAttribute_set uvAttr
                  (newUVData u v width height depth textureWidth textureHeight) in
  let uvAttr := set_attr_needsUpdate uvAttr true in
  set_uv box uvAttr.

Definition setSkinUVs (box : BoxGeometry) (u v width height depth : R)
  : BoxGeometry :=
  setUVs box u v width height depth 64 64.

(** ** Meshes and body parts *)

(** The material objects of the model; a mesh refers to one of them. *)
Inductive MaterialRef :=
| Layer1Material | Layer1MaterialBiased | Layer2Material | Layer2MaterialBiased
| EarsMaterial.

Record Mesh := mkMesh {
  mesh_object : Object3D;
  geometry : BoxGeometry;
  material : MaterialRef
}.

(** [new Mesh(geometry, material)] *)
Definition Mesh_new (g : BoxGeometry) (m : MaterialRef) : Mesh :=
  mkMesh Object3D_new g m.

Definition Mesh_with_object (m : Mesh) (f : Object3D -> Object3D) : Mesh :=
  mkMesh (f (mesh_object m)) (geometry m) (material m).

Module BodyPart.

(** [class BodyPart extends Group]: the group's own transform and the two
    layers it tracks. *)
Record t := mk {
  object : Object3D;
  innerLayer : Mesh;
  outerLayer : Mesh
}.

Definition new (innerLayer outerLayer : Mesh) : t :=
  mk Object3D_new
     (Mesh_with_object innerLayer (fun o => set_name o "inner"))
     (Mesh_with_object outerLayer (fun o => set_name o "outer")).

Definition with_object (b : t) (f : Object3D -> Object3D) : t :=
  mk (f (object b)) (innerLayer b) (outerLayer b).

End BodyPart.

(** ** Listeners *)

(** A model listener is a closure [() => void] supplied from outside. *)
Inductive Listener := ListenerRef (id : nat).

Inductive Argument :=
| ArgNumber (r : R) | ArgString (s : string) | ArgBool (b : bool).

(** One invocation of a listener, with the arguments passed to it. *)
Record Call := mkCall { callee : Listener; arguments : list Argument }.

(** [Array.prototype.forEach]: the callback receives the element and its
    index, for the indices in increasing order; the effects of the successive
    callbacks follow each other. *)
Fixpoint forEach_from {A E : Type} (callbackfn : A -> nat -> list E)
  (k : nat) (arr : list A) : list E :=
  match arr with
  | [] => []
  | e :: rest => callbackfn e k ++ forEach_from callbackfn (S k) rest
  end.

Definition forEach {A E : Type} (arr : list A) (callbackfn : A -> nat -> list E)
  : list E :=
  forEach_from callbackfn 0%nat arr.

(** ** SkinObject *)

(** [ModelType] of skinview-utils: ["default" | "slim"]. *)
Definition ModelType := string.

Module SkinObject.

Record t := mk {
  object : Object3D;
  head : BodyPart.t;
  modelListeners : list Listener;
  slim : bool;
  _map : option Texture;
  layer1Material : MeshStandardMaterial;
  layer1MaterialBiased : MeshStandardMaterial;
  layer2Material : MeshStandardMaterial;
  layer2MaterialBiased : MeshStandardMaterial
}.

Definition with_object (s : t) (f : Object3D -> Object3D) : t :=
  mk (f (object s)) (head s) (modelListeners s) (slim s) (_map s)
     (layer1Material s) (layer1MaterialBiased s)
     (layer2Material s) (layer2MaterialBiased s).

Definition with_head (s : t) (f : BodyPart.t -> BodyPart.t) : t :=
  mk (object s) (f (head s)) (modelListeners s) (slim s) (_map s)
     (layer1Material s) (layer1MaterialBiased s)
     (layer2Material s) (layer2MaterialBiased s).

(** [get map()] *)
Definition get_map (this : t) : option Texture := _map this.

(** [set map(newMap)] *)
Definition set_map (this : t) (newMap : option Texture) : t :=
  let l1 := set_needsUpdate (Three.set_map (layer1Material this) newMap) true in
  let l1b := set_needsUpdate (Three.set_map (layer1MaterialBiased this) newMap) true in
  let l2 := set_needsUpdate (Three.set_map (layer2Material this) newMap) true in
  let l2b := set_needsUpdate (Three.set_map (layer2MaterialBiased this) newMap) true in
  mk (object this) (head this) (modelListeners this) (slim this) newMap
     l1 l1b l2 l2b.

(** [get modelType()] *)
Definition get_modelType (this : t) : ModelType :=
  if slim this then "slim"%string else "default"%string.

(** [set modelType(value)]: the updated object and the listener invocations
    it made, in the order it made them. *)
Definition set_modelType (this : t) (value : ModelType) : t * list Call :=
  let this' :=
    mk (object this) (head this) (modelListeners this)
       (String.eqb value "slim") (_map this)
       (layer1Material this) (layer1MaterialBiased this)
       (layer2Material this) (layer2MaterialBiased this) in
  (this', forEach (modelListeners this') (fun listener _ => [mkCall listener []])).

(** [resetJoints()] *)
Definition resetJoints (this : t) : t :=
  with_head this (fun h =>
    BodyPart.with_object h (fun o =>
      set_rotation o (Euler_set (rotation o) 0 0 0))).

(** [new SkinObject()] *)
Definition new : t :=
  let layer1Material := MeshStandardMaterial_new FrontSide false 0 in
  let layer2Material := MeshStandardMaterial_new DoubleSide true 1e-5 in
  let layer1MaterialBiased := set_polygonOffset (clone layer1Material) true 1 1 in
  let layer2MaterialBiased := set_polygonOffset (clone layer2Material) true 1 1 in
  let headBox := setSkinUVs (BoxGeometry_new 8 8 8) 0 0 8 8 8 in
  let headMesh := Mesh_new headBox Layer1Material in
  let head2Box := setSkinUVs (BoxGeometry_new 9 9 9) 32 0 8 8 8 in
  let head2Mesh := Mesh_new head2Box Layer2Material in
  let head := BodyPart.new headMesh head2Mesh in
  let head := BodyPart.with_object head (fun o => set_name o "head") in
  let head :=
    BodyPart.mk (BodyPart.object head)
      (Mesh_with_object (BodyPart.innerLayer head) (fun o => set_position_y o 0))
      (Mesh_with_object (BodyPart.outerLayer head) (fun o => set_position_y o 0)) in
  let this :=
    mk Object3D_new head [] false None
       layer1Material layer1MaterialBiased layer2Material layer2MaterialBiased in
  fst (set_modelType this "default"%string).

End SkinObject.

(** ** EarsObject *)

Module EarsObject.

Record t := mk {
  object : Object3D;
  rightEar : Mesh;
  leftEar : Mesh;
  material : MeshStandardMaterial
}.

Definition with_object (e : t) (f : Object3D -> Object3D) : t :=
  mk (f (object e)) (rightEar e) (leftEar e) (material e).

Definition get_map (this : t) : option Texture := Three.map (material this).

Definition set_map (this : t) (newMap : option Texture) : t :=
  mk (object this) (rightEar this) (leftEar this)
     (set_needsUpdate (Three.set_map (material this) newMap) true).

Definition new : t :=
  let material := MeshStandardMaterial_new FrontSide false 0 in
  let earBox := setUVs (BoxGeometry_new 8 8 (4 / 3)) 0 0 6 6 1 14 7 in
  let rightEar := Mesh_new earBox EarsMaterial in
  let rightEar := Mesh_with_object rightEar (fun o => set_name o "rightEar") in
  let rightEar := Mesh_with_object rightEar (fun o => set_position_x o (-6)) in
  let leftEar := Mesh_new earBox EarsMaterial in
  let leftEar := Mesh_with_object leftEar (fun o => set_name o "leftEar") in
  let leftEar := Mesh_with_object leftEar (fun o => set_position_x o 6) in
  mk Object3D_new rightEar leftEar material.

End EarsObject.

(** ** PlayerObject *)

(** [BackEquipment]: ["cape" | "elytra"]. *)
Definition BackEquipment := string.

Module PlayerObject.

(** The root group with the skin and the ears it owns (the ears hang below
    the head of the skin in the scene graph). *)
Record t := mk {
  object : Object3D;
  skin : SkinObject.t;
  ears : EarsObject.t
}.

Definition with_object (p : t) (f : Object3D -> Object3D) : t :=
  mk (f (object p)) (skin p) (ears p).

Definition with_skin (p : t) (f : SkinObject.t -> SkinObject.t) : t :=
  mk (object p) (f (skin p)) (ears p).

(** Assignments to [player.skin.head.rotation.*]. *)
Definition with_head_object (p : t) (f : Object3D -> Object3D) : t :=
  with_skin p (fun s => SkinObject.with_head s (fun h => BodyPart.with_object h f)).

Definition new : t :=
  let skin := SkinObject.new in
  let skin := SkinObject.with_object skin (fun o => set_name o "skin") in
  let skin := SkinObject.with_object skin (fun o => set_position_y o 0) in
  let ears := EarsObject.new in
  let ears := EarsObject.with_object ears (fun o => set_name o "ears") in
  let ears := EarsObject.with_object ears (fun o => set_position_y o 8) in
  let ears := EarsObject.with_object ears (fun o => set_position_z o (2 / 3)) in
  let ears := EarsObject.with_object ears (fun o => set_visible o false) in
  mk Object3D_new skin ears.

(** [get backEquipment()] *)
Definition get_backEquipment (this : t) : option BackEquipment := None.

(** [set backEquipment(_value)] *)
Definition set_backEquipment (this : t) (_value : option BackEquipment) : t :=
  this.

(** [resetJoints()] *)
Definition resetJoints (this : t) : t :=
  with_skin this SkinObject.resetJoints.

End PlayerObject.

(** ** Animations *)

(** The subclasses of [PlayerAnimation], each with the fields it adds. *)
Inductive AnimationClass :=
| FunctionAnimation (fn : PlayerObject.t -> R -> R -> PlayerObject.t)
| IdleAnimation
| WalkingAnimation (headBobbing : bool)
| RunningAnimation
| FlyingAnimation.

Module PlayerAnimation.

Record t := mk {
  speed : R;
  paused : bool;
  progress : R;
  subclass : AnimationClass
}.

(** The field initialisers of the abstract class. *)
Definition new (c : AnimationClass) : t := mk 1 false 0 c.

Definition set_progress (a : t) (v : R) : t :=
  mk (speed a) (paused a) v (subclass a).

Definition set_paused (a : t) (b : bool) : t :=
  mk (speed a) b (progress a) (subclass a).

Definition set_speed (a : t) (v : R) : t :=
  mk v (paused a) (progress a) (subclass a).

End PlayerAnimation.

Import PlayerAnimation.

Definition FunctionAnimation_animate
  (fn : PlayerObject.t -> R -> R -> PlayerObject.t)
  (this : PlayerAnimation.t) (player : PlayerObject.t) (delta : R)
  : PlayerObject.t :=
  fn player (progress this) delta.

Definition IdleAnimation_animate
  (this : PlayerAnimation.t) (_player : PlayerObject.t) : PlayerObject.t :=
  _player.

Definition WalkingAnimation_animate (headBobbing : bool)
  (this : PlayerAnimation.t) (player : PlayerObject.t) : PlayerObject.t :=
  let t := progress this * 8 in
  if headBobbing then
    let player :=
      PlayerObject.with_head_object player
        (fun o => set_rotation_y o (sin (t / 4) * 0.2)) in
    PlayerObject.with_head_object player
      (fun o => set_rotation_x o (sin (t / 5) * 0.1))
  else
    let player :=
      PlayerObject.with_head_object player (fun o => set_rotation_y o 0) in
    PlayerObject.with_head_object player (fun o => set_rotation_x o 0).

Definition RunningAnimation_animate
  (this : PlayerAnimation.t) (player : PlayerObject.t) : PlayerObject.t :=
  let t := progress this * 15 + PI * 0.5 in
  let player :=
    PlayerObject.with_object player (fun o => set_position_y o (cos (t * 2))) in
  let player :=
    PlayerObject.with_object player (fun o => set_position_x o (cos t * 0.15)) in
  PlayerObject.with_object player (fun o => set_rotation_z o (cos (t + PI) * 0.01)).

Definition clamp (num min max : R) : R :=
  if Rle_dec num min then min else if Rge_dec num max then max else num.

(** The two locals of [FlyingAnimation.animate]. *)
Definition flying_t (progress : R) : R :=
  if Rgt_dec progress 0 then progress * 20 else 0.

Definition flying_startProgress (progress : R) : R :=
  let t := flying_t progress in
  clamp ((t * t) / 100) 0 1.

Definition FlyingAnimation_animate
  (this : PlayerAnimation.t) (player : PlayerObject.t) : PlayerObject.t :=
  let startProgress := flying_startProgress (progress this) in
  let player :=
    PlayerObject.with_object player
      (fun o => set_rotation_x o ((startProgress * PI) / 2)) in
  PlayerObject.with_head_object player
    (fun o => set_rotation_x o
       (if Rgt_dec startProgress 0.5
        then PI / 4 - ex (rotation (PlayerObject.object player))
        else 0)).

(** [animate], dispatched on the class of [this]. *)
Definition animate (this : PlayerAnimation.t) (player : PlayerObject.t)
  (delta : R) : PlayerObject.t :=
  match subclass this with
  | FunctionAnimation fn => FunctionAnimation_animate fn this player delta
  | IdleAnimation => IdleAnimation_animate this player
  | WalkingAnimation headBobbing => WalkingAnimation_animate headBobbing this player
  | RunningAnimation => RunningAnimation_animate this player
  | FlyingAnimation => FlyingAnimation_animate this player
  end.

(** [PlayerAnimation.update] *)
Definition update (this : PlayerAnimation.t) (player : PlayerObject.t)
  (deltaTime : R) : PlayerAnimation.t * PlayerObject.t :=
  if paused this then (this, player)
  else
    let delta := deltaTime * speed this in
    let player := animate this player delta in
    (set_progress this (progress this + delta), player).

(** A sequence of [update] calls on the same animation and player: the
    state after every call. *)
Fixpoint replay (this : PlayerAnimation.t) (player : PlayerObject.t)
  (deltas : list R) : list (PlayerAnimation.t * PlayerObject.t) :=
  match deltas with
  | [] => []
  | deltaTime :: rest =>
      let s := update this player deltaTime in
      s :: replay (fst s) (snd s) rest
  end.

(** The state after the whole sequence. *)
Fixpoint run (this : PlayerAnimation.t) (player : PlayerObject.t)
  (deltas : list R) : PlayerAnimation.t * PlayerObject.t :=
  match deltas with
  | [] => (this, player)
  | deltaTime :: rest =>
      let s := update this player deltaTime in
      run (fst s) (snd s) rest
  end.

(** The animations shipped with the model (all but [FunctionAnimation]). *)
Definition concrete (c : AnimationClass) : bool :=
  match c with
  | FunctionAnimation _ => false
  | _ => true
  end.

(** ** Vocabulary of the properties *)

(** The texel corners behind the 24 emitted coordinates, in emission order. *)
Definition texel_corners (u v width height depth : R) : list (R * R) :=
  let quad x1 y1 x2 y2 := [(x1, y1); (x2, y1); (x1, y2); (x2, y2)] in
  let quad' x1 y1 x2 y2 := [(x1, y2); (x2, y2); (x1, y1); (x2, y1)] in
  quad (u + width + depth) (v + depth) (u + width + depth * 2) (v + height + depth)
  ++ quad u (v + depth) (u + depth) (v + depth + height)
  ++ quad (u + depth) v (u + width + depth) (v + depth)
  ++ quad' (u + width + depth) v (u + width * 2 + depth) (v + depth)
  ++ quad (u + depth) (v + depth) (u + width + depth) (v + depth + height)
  ++ quad (u + width + depth * 2) (v + depth) (u + width * 2 + depth * 2) (v + height + depth).

(** The normalisation of a texel corner: x scaled, y scaled and flipped. *)
Definition normalize (textureWidth textureHeight : R) (p : R * R) : list R :=
  [fst p / textureWidth; 1 - snd p / textureHeight].

(** The animation of the class documentation: it copies the progress it is
    given into the yaw of the player. *)
Definition yaw_follows_progress : AnimationClass :=
  FunctionAnimation
    (fun player progress _ =>
       PlayerObject.with_object player (fun o => set_rotation_y o progress)).

Definition Listener_eqb (a b : Listener) : bool :=
  match a, b with ListenerRef i, ListenerRef j => Nat.eqb i j end.

(** The number of invocations of [l] among [calls]. *)
Definition invocations (l : Listener) (calls : list Call) : nat :=
  length (filter (fun c => Listener_eqb (callee c) l) calls).

(** The number of times [l] is registered. *)
Definition registrations (l : Listener) (listeners : list Listener) : nat :=
  length (filter (fun l' => Listener_eqb l' l) listeners).

(** ** The children of the skin group and the layer switches *)

Module SkinGroup.

(** One entry of [this.children] of a [SkinObject]: the body part held in
    the [head] field, another [BodyPart], or an object of another class. *)
Inductive Child :=
| HeadChild
| BodyPartChild (part : BodyPart.t)
| ObjectChild (o : Object3D).

(** A skin together with its [children] array. *)
Record t := mk {
  skin : SkinObject.t;
  children : list Child
}.

(** [new SkinObject()]: the constructor adds the head and nothing else. *)
Definition new : t := mk SkinObject.new [HeadChild].

(** [it instanceof BodyPart] *)
Definition instanceof_BodyPart (it : Child) : bool :=
  match it with
  | HeadChild | BodyPartChild _ => true
  | ObjectChild _ => false
  end.

(** [Array.prototype.filter] over an array of objects: the elements kept,
    in order, each as a reference (its index in [arr], counted from [k]). *)
Fixpoint filter_from {A : Type} (predicate : A -> bool) (k : nat) (arr : list A)
  : list nat :=
  match arr with
  | [] => []
  | it :: rest =>
      if predicate it then k :: filter_from predicate (S k) rest
      else filter_from predicate (S k) rest
  end.

(** [getBodyParts()] *)
Definition getBodyParts (this : t) : list nat :=
  filter_from instanceof_BodyPart 0%nat (children this).

Fixpoint set_nth {A : Type} (i : nat) (v : A) (l : list A) : list A :=
  match l, i with
  | [], _ => []
  | _ :: rest, O => v :: rest
  | a :: rest, S i' => a :: set_nth i' v rest
  end.

(** The body part a reference stands for. *)
Definition part_at (this : t) (ref : nat) : option BodyPart.t :=
  match nth_error (children this) ref with
  | Some HeadChild => Some (SkinObject.head (skin this))
  | Some (BodyPartChild part) => Some part
  | _ => None
  end.

(** A write to the body part behind a reference. *)
Definition with_part (this : t) (ref : nat) (f : BodyPart.t -> BodyPart.t) : t :=
  match nth_error (children this) ref with
  | Some HeadChild => mk (SkinObject.with_head (skin this) f) (children this)
  | Some (BodyPartChild part) =>
      mk (skin this) (set_nth ref (BodyPartChild (f part)) (children this))
  | _ => this
  end.

(** [part.innerLayer.visible = value] *)
Definition set_innerLayer_visible (value : bool) (part : BodyPart.t) : BodyPart.t :=
  BodyPart.mk (BodyPart.object part)
    (Mesh_with_object (BodyPart.innerLayer part) (fun o => set_visible o value))
    (BodyPart.outerLayer part).

(** [part.outerLayer.visible = value] *)
Definition set_outerLayer_visible (value : bool) (part : BodyPart.t) : BodyPart.t :=
  BodyPart.mk (BodyPart.object part)
    (BodyPart.innerLayer part)
    (Mesh_with_object (BodyPart.outerLayer part) (fun o => set_visible o value)).

(** [setInnerLayerVisible(value)] *)
Definition setInnerLayerVisible (this : t) (value : bool) : t :=
  fold_left (fun this part => with_part this part (set_innerLayer_visible value))
            (getBodyParts this) this.

(** [setOuterLayerVisible(value)] *)
Definition setOuterLayerVisible (this : t) (value : bool) : t :=
  fold_left (fun this part => with_part this part (set_outerLayer_visible value))
            (getBodyParts this) this.

(** [f] applied to the body parts among the children that are not the
    head. *)
Definition map_parts (f : BodyPart.t -> BodyPart.t) (c : Child) : Child :=
  match c with
  | BodyPartChild part => BodyPartChild (f part)
  | _ => c
  end.

Definition is_head (c : Child) : bool :=
  match c with
  | HeadChild => true
  | _ => false
  end.

(** [f] applied to every body part among the children, the head included
    when it is one of them. *)
Definition on_parts (f : BodyPart.t -> BodyPart.t) (this : t) : t :=
  mk (if existsb is_head (children this)
      then SkinObject.with_head (skin this) f else skin this)
     (List.map (map_parts f) (children this)).

End SkinGroup.

(** ** More vocabulary *)

(** A rectangle of the atlas, in texels (y grows downwards). *)
Record Rect := mkRect { r_left : R; r_top : R; r_right : R; r_bottom : R }.

(** The six rectangles [setUVs] passes to [toFaceVertices], in the order it
    emits them: right, left, top, bottom, front, back. *)
Definition face_rects (u v width height depth : R) : list Rect :=
  [ mkRect (u + width + depth) (v + depth) (u + width + depth * 2) (v + height + depth);
    mkRect u (v + depth) (u + depth) (v + depth + height);
    mkRect (u + depth) v (u + width + depth) (v + depth);
    mkRect (u + width + depth) v (u + width * 2 + depth) (v + depth);
    mkRect (u + depth) (v + depth) (u + width + depth) (v + depth + height);
    mkRect (u + width + depth * 2) (v + depth) (u + width * 2 + depth * 2) (v + height + depth) ].

(** The corners of a rectangle as uv numbers, row by row from [y0] to [y1]. *)
Definition rows_uv (textureWidth textureHeight : R) (r : Rect) (y0 y1 : R)
  : list R :=
  [ r_left r / textureWidth; 1 - y0 / textureHeight;
    r_right r / textureWidth; 1 - y0 / textureHeight;
    r_left r / textureWidth; 1 - y1 / textureHeight;
    r_right r / textureWidth; 1 - y1 / textureHeight ].

(** Upper row first; for the bottom face (index 3) lower row first. *)
Definition face_uv (textureWidth textureHeight : R) (i : nat) (r : Rect) : list R :=
  if Nat.eqb i 3
  then rows_uv textureWidth textureHeight r (r_bottom r) (r_top r)
  else rows_uv textureWidth textureHeight r (r_top r) (r_bottom r).

(** Two rectangles that share no interior point. *)
Definition apart (r s : Rect) : Prop :=
  r_right r <= r_left s \/ r_right s <= r_left r
  \/ r_bottom r <= r_top s \/ r_bottom s <= r_top r.

(** The fields an animation may write: the position and rotation of the
    root and the rotation of the head.  [same_frame p q] says [p] and [q]
    agree on everything else. *)
Definition same_frame (p q : PlayerObject.t) : Prop :=
  PlayerObject.ears p = PlayerObject.ears q
  /\ name (PlayerObject.object p) = name (PlayerObject.object q)
  /\ visible (PlayerObject.object p) = visible (PlayerObject.object q)
  /\ SkinObject.with_head (PlayerObject.skin p)
       (fun h => BodyPart.with_object h (fun o => set_rotation o (mkEuler 0 0 0)))
     = SkinObject.with_head (PlayerObject.skin q)
         (fun h => BodyPart.with_object h (fun o => set_rotation o (mkEuler 0 0 0))).

(** * Properties *)

(** ** The UV mapper *)

Lemma div_unit (x t : R) : 0 < t -> 0 <= x <= t -> 0 <= x / t <= 1.
Proof.
  intros Ht [H0 H1]. split.
  - apply Rle_mult_inv_pos; assumption.
  - apply (Rmult_le_reg_r t); [assumption|].
    unfold Rdiv. rewrite Rmult_assoc, Rinv_l; lra.
Qed.

Lemma flip_unit (y t : R) : 0 < t -> 0 <= y <= t -> 0 <= 1 - y / t <= 1.
Proof.
  intros Ht Hy. pose proof (div_unit y t Ht Hy). lra.
Qed.

Lemma newUVData_texels (u v width height depth textureWidth textureHeight : R) :
  newUVData u v width height depth textureWidth textureHeight
  = flat_map (normalize textureWidth textureHeight)
             (texel_corners u v width height depth).
Proof. reflexivity. Qed.

Lemma newUVData_length (u v width height depth textureWidth textureHeight : R) :
  length (newUVData u v width height depth textureWidth textureHeight) = 48%nat.
Proof. reflexivity. Qed.

Lemma texel_corners_in_atlas (u v width height depth textureWidth textureHeight : R) :
  0 < width -> 0 < height -> 0 < depth -> 0 <= u -> 0 <= v ->
  u + 2 * width + 2 * depth <= textureWidth ->
  v + depth + height <= textureHeight ->
  Forall (fun p => 0 <= fst p <= textureWidth /\ 0 <= snd p <= textureHeight)
         (texel_corners u v width height depth).
Proof.
  intros Hw Hh Hd Hu Hv Hx Hy.
  unfold texel_corners; cbn [app].
  repeat (apply Forall_cons; [cbn [fst snd]; lra|]).
  apply Forall_nil.
Qed.

Lemma normalize_unit (textureWidth textureHeight : R) (l : list (R * R)) :
  0 < textureWidth -> 0 < textureHeight ->
  Forall (fun p => 0 <= fst p <= textureWidth /\ 0 <= snd p <= textureHeight) l ->
  Forall (fun c => 0 <= c <= 1) (flat_map (normalize textureWidth textureHeight) l).
Proof.
  intros Hw Hh H. induction H as [|p l [Hx Hy] _ IH]; cbn [flat_map normalize app].
  - constructor.
  - constructor; [apply div_unit; assumption|].
    constructor; [apply flip_unit; assumption|exact IH].
Qed.

Lemma BufferAttribute_set_full (a : BufferAttribute) (values : list R) :
  length (array a) = length values ->
  array (BufferAttribute_set a values) = values.
Proof.
  intros Hlen. unfold BufferAttribute_set; cbn [array].
  rewrite <- Hlen, skipn_all. apply app_nil_r.
Qed.

(** C4: when the unwrap region of a box fits the atlas, each of the 24
    texture coordinates [setUVs] emits has both components in [0, 1]; the
    coordinates are the texel corners of the cross layout scaled by the atlas
    size, the y component flipped ([1 - y / textureHeight]); and they are
    what [setUVs] leaves in the uv attribute of a box. *)
Theorem setUVs_coordinates_in_unit_interval
  (u v width height depth textureWidth textureHeight : R) :
  0 < width -> 0 < height -> 0 < depth -> 0 <= u -> 0 <= v ->
  u + 2 * width + 2 * depth <= textureWidth ->
  v + depth + height <= textureHeight ->
  let data := newUVData u v width height depth textureWidth textureHeight in
  length data = 48%nat
  /\ Forall (fun c => 0 <= c <= 1) data
  /\ data = flat_map (fun p => [fst p / textureWidth; 1 - snd p / textureHeight])
                     (texel_corners u v width height depth)
  /\ forall box, length (array (uv box)) = 48%nat ->
       array (uv (setUVs box u v width height depth textureWidth textureHeight))
       = data
       /\ attr_needsUpdate
            (uv (setUVs box u v width height depth textureWidth textureHeight))
          = true.
Proof.
  intros Hw Hh Hd Hu Hv Hx Hy data.
  split; [reflexivity|]. split; [|split; [reflexivity|]].
  - subst data. rewrite newUVData_texels.
    apply normalize_unit; [lra|lra|].
    apply texel_corners_in_atlas; assumption.
  - intros box Hbox. split; [|reflexivity].
    unfold setUVs; cbn [uv set_uv set_attr_needsUpdate array].
    apply BufferAttribute_set_full. rewrite Hbox. reflexivity.
Qed.

(** The head box of the skin: an 8 x 8 x 8 box at the origin of the 64 x 64
    atlas. *)
Lemma setUVs_coordinates_head_box :
  let data := newUVData 0 0 8 8 8 64 64 in
  length data = 48%nat
  /\ Forall (fun c => 0 <= c <= 1) data
  /\ data = flat_map (fun p => [fst p / 64; 1 - snd p / 64])
                     (texel_corners 0 0 8 8 8)
  /\ forall box, length (array (uv box)) = 48%nat ->
       array (uv (setUVs box 0 0 8 8 8 64 64)) = data
       /\ attr_needsUpdate (uv (setUVs box 0 0 8 8 8 64 64)) = true.
Proof.
  apply (setUVs_coordinates_in_unit_interval 0 0 8 8 8 64 64); lra.
Defined.

(** ** The update contract *)

(** C1: an unpaused [update] scales the elapsed time by [speed], runs
    [animate] on the player with the scaled delta while [progress] still has
    its value from before the call (a [FunctionAnimation] receives exactly
    that value), and afterwards adds the scaled delta to [progress]; speed,
    pause flag and class are untouched. *)
Theorem update_animates_then_advances
  (this : PlayerAnimation.t) (player : PlayerObject.t) (deltaTime : R) :
  paused this = false ->
  let scaledDelta := deltaTime * speed this in
  let after := update this player deltaTime in
  snd after = animate this player scaledDelta
  /\ (forall fn, subclass this = FunctionAnimation fn ->
        snd after = fn player (progress this) scaledDelta)
  /\ progress (fst after) = progress this + scaledDelta
  /\ progress (fst after) = progress this + deltaTime * speed this
  /\ speed (fst after) = speed this
  /\ paused (fst after) = false
  /\ subclass (fst after) = subclass this.
Proof.
  intros Hrun scaledDelta after. subst after scaledDelta.
  unfold update. rewrite Hrun. cbn [fst snd set_progress progress speed paused subclass].
  repeat split; try reflexivity; try exact Hrun.
  intros fn Hfn. unfold animate. rewrite Hfn. reflexivity.
Qed.

(** The documentation's animation at progress 3, speed 1/2, after 2 time
    units: the player saw progress 3, and progress is 4 afterwards. *)
Lemma update_animates_then_advances_example :
  let this := PlayerAnimation.mk (1 / 2) false 3 yaw_follows_progress in
  let after := update this PlayerObject.new 2 in
  paused this = false
  /\ ey (rotation (PlayerObject.object (snd after))) = 3
  /\ progress (fst after) = 3 + 2 * (1 / 2).
Proof.
  intros this after.
  destruct (update_animates_then_advances this PlayerObject.new 2 eq_refl)
    as (_ & Hfn & Hprogress & _).
  split; [reflexivity|]. split.
  - subst after. rewrite (Hfn _ eq_refl). reflexivity.
  - exact Hprogress.
Defined.

Lemma update_paused (this : PlayerAnimation.t) (player : PlayerObject.t)
  (deltaTime : R) :
  paused this = true -> update this player deltaTime = (this, player).
Proof. intros Hp. unfold update. rewrite Hp. reflexivity. Qed.

(** C2: while [paused] is set, [update] returns the animation and the
    player as they were, for any elapsed time, and so does any sequence of
    such calls: every intermediate state is the initial one. *)
Theorem update_paused_is_noop
  (this : PlayerAnimation.t) (player : PlayerObject.t) :
  paused this = true ->
  (forall deltaTime, update this player deltaTime = (this, player))
  /\ (forall deltas, run this player deltas = (this, player))
  /\ (forall deltas,
        replay this player deltas = repeat (this, player) (length deltas)).
Proof.
  intros Hp. split; [|split].
  - intros deltaTime. apply update_paused, Hp.
  - induction deltas as [|d ds IH]; cbn [run]; [reflexivity|].
    rewrite (update_paused _ _ d Hp). exact IH.
  - induction deltas as [|d ds IH]; cbn [replay length repeat]; [reflexivity|].
    rewrite (update_paused _ _ d Hp). cbn [fst snd]. rewrite IH. reflexivity.
Qed.

(** A paused walking animation at progress 5, updated three times. *)
Lemma update_paused_is_noop_example :
  let this := PlayerAnimation.mk 1 true 5 (WalkingAnimation true) in
  paused this = true
  /\ (forall deltaTime, update this PlayerObject.new deltaTime
                        = (this, PlayerObject.new))
  /\ (forall deltas, run this PlayerObject.new deltas = (this, PlayerObject.new))
  /\ (forall deltas,
        replay this PlayerObject.new deltas
        = repeat (this, PlayerObject.new) (length deltas)).
Proof.
  intros this. split; [reflexivity|].
  apply (update_paused_is_noop this PlayerObject.new). reflexivity.
Defined.

(** ** Determinism *)

Lemma animation_ext (a1 a2 : PlayerAnimation.t) :
  subclass a1 = subclass a2 -> speed a1 = speed a2 ->
  paused a1 = paused a2 -> progress a1 = progress a2 -> a1 = a2.
Proof.
  destruct a1, a2; cbn [subclass speed paused progress].
  intros -> -> -> ->. reflexivity.
Qed.

Lemma replay_length (this : PlayerAnimation.t) (player : PlayerObject.t)
  (deltas : list R) :
  length (replay this player deltas) = length deltas.
Proof.
  revert this player.
  induction deltas as [|d ds IH]; intros this player; cbn [replay length].
  - reflexivity.
  - rewrite IH. reflexivity.
Qed.

(** The pose a shipped animation writes depends on the animation through
    its class and its progress only: not on the delta, the speed or the
    pause flag. *)
Lemma animate_progress_only (a1 a2 : PlayerAnimation.t) (player : PlayerObject.t)
  (d1 d2 : R) :
  concrete (subclass a1) = true ->
  subclass a2 = subclass a1 -> progress a2 = progress a1 ->
  animate a2 player d2 = animate a1 player d1.
Proof.
  intros Hc Hs Hp. unfold animate. rewrite Hs.
  destruct (subclass a1) as [fn| |headBobbing| |]; [discriminate Hc| | | |].
  - reflexivity.
  - unfold WalkingAnimation_animate. rewrite Hp. reflexivity.
  - unfold RunningAnimation_animate. rewrite Hp. reflexivity.
  - unfold FlyingAnimation_animate. rewrite Hp. reflexivity.
Qed.

(** Running a shipped animation again at the same progress leaves the pose
    it wrote the first time: the pose does not count calls. *)
Lemma animate_idempotent (a : PlayerAnimation.t) (player : PlayerObject.t)
  (d d' : R) :
  concrete (subclass a) = true ->
  animate a (animate a player d) d' = animate a player d.
Proof.
  intros Hc. unfold animate.
  destruct (subclass a) as [fn| |headBobbing| |]; [discriminate Hc| | | |].
  - reflexivity.
  - destruct headBobbing; reflexivity.
  - reflexivity.
  - reflexivity.
Qed.

(** C3: for a shipped animation (idle, walking, running, flying), two replays
    that start from the same animation state (class, speed, pause flag,
    progress) and the same player and are fed the same deltas yield the same
    progress and the same player after every step, one state per delta; the
    pose written in a step is determined by the class and the progress at
    that step, whatever the delta, and writing it again changes nothing. *)
Theorem replay_deterministic
  (a1 a2 : PlayerAnimation.t) (p1 p2 : PlayerObject.t) (ds1 ds2 : list R) :
  concrete (subclass a1) = true ->
  subclass a1 = subclass a2 -> speed a1 = speed a2 ->
  paused a1 = paused a2 -> progress a1 = progress a2 ->
  p1 = p2 -> ds1 = ds2 ->
  replay a1 p1 ds1 = replay a2 p2 ds2
  /\ List.map (fun s => progress (fst s)) (replay a1 p1 ds1)
     = List.map (fun s => progress (fst s)) (replay a2 p2 ds2)
  /\ List.map snd (replay a1 p1 ds1) = List.map snd (replay a2 p2 ds2)
  /\ length (replay a1 p1 ds1) = length ds1
  /\ (forall a' player d d',
        subclass a' = subclass a1 -> progress a' = progress a1 ->
        animate a' player d' = animate a1 player d)
  /\ (forall player d d',
        animate a1 (animate a1 player d) d' = animate a1 player d).
Proof.
  intros Hc Hs Hv Hp Hg Hplayer Hds.
  assert (Ha : a1 = a2) by (apply animation_ext; assumption).
  subst a2 p2 ds2.
  repeat split.
  - apply replay_length.
  - intros a' player d d' Hs' Hg'. apply animate_progress_only; assumption.
  - intros player d d'. apply animate_idempotent, Hc.
Qed.

(** Two replays of a running animation over the deltas 1, 2. *)
Lemma replay_deterministic_example :
  let a := PlayerAnimation.new RunningAnimation in
  let p := PlayerObject.new in
  let ds := [1; 2] in
  replay a p ds = replay a p ds
  /\ List.map (fun s => progress (fst s)) (replay a p ds)
     = List.map (fun s => progress (fst s)) (replay a p ds)
  /\ List.map snd (replay a p ds) = List.map snd (replay a p ds)
  /\ length (replay a p ds) = length ds
  /\ (forall a' player d d',
        subclass a' = subclass a -> progress a' = progress a ->
        animate a' player d' = animate a player d)
  /\ (forall player d d',
        animate a (animate a player d) d' = animate a player d).
Proof.
  intros a p ds.
  apply (replay_deterministic a a p p ds ds); reflexivity.
Defined.

(** ** The texture of the skin *)

(** C5: assigning [map] stores the texture in each of the four materials of
    the skin and raises the re-upload flag of each; the getter then returns
    the assigned value ([null] included); a freshly built skin reads
    [null]. *)
Theorem set_map_reaches_all_materials
  (s : SkinObject.t) (X : option Texture) :
  let s' := SkinObject.set_map s X in
  (Three.map (SkinObject.layer1Material s') = X
   /\ needsUpdate (SkinObject.layer1Material s') = true)
  /\ (Three.map (SkinObject.layer1MaterialBiased s') = X
      /\ needsUpdate (SkinObject.layer1MaterialBiased s') = true)
  /\ (Three.map (SkinObject.layer2Material s') = X
      /\ needsUpdate (SkinObject.layer2Material s') = true)
  /\ (Three.map (SkinObject.layer2MaterialBiased s') = X
      /\ needsUpdate (SkinObject.layer2MaterialBiased s') = true)
  /\ SkinObject.get_map s' = X
  /\ SkinObject.get_map SkinObject.new = None
  /\ SkinObject.get_map (PlayerObject.skin PlayerObject.new) = None.
Proof.
  cbv zeta. repeat split.
Qed.

(** ** The model type of the skin *)

Lemma forEach_from_calls (listeners : list Listener) (k : nat) :
  forEach_from (fun listener (_ : nat) => [mkCall listener []]) k listeners
  = List.map (fun listener => mkCall listener []) listeners.
Proof.
  revert k. induction listeners as [|l ls IH]; intros k; cbn [forEach_from List.map].
  - reflexivity.
  - rewrite IH. reflexivity.
Qed.

Lemma invocations_map (l : Listener) (listeners : list Listener) :
  invocations l (List.map (fun listener => mkCall listener []) listeners)
  = registrations l listeners.
Proof.
  unfold invocations, registrations.
  induction listeners as [|l' ls IH]; cbn [List.map filter callee].
  - reflexivity.
  - destruct (Listener_eqb l' l); cbn [length]; rewrite IH; reflexivity.
Qed.

(** C6: assigning [modelType] sets the slim flag to whether the value is
    ["slim"], and calls the registered listeners one after the other in
    registration order, each call without arguments and each listener once
    per registration; nothing else of the skin changes. *)
Theorem set_modelType_notifies_listeners
  (s : SkinObject.t) (value : ModelType) :
  let s' := fst (SkinObject.set_modelType s value) in
  let calls := snd (SkinObject.set_modelType s value) in
  (SkinObject.slim s' = true <-> value = "slim"%string)
  /\ SkinObject.get_modelType s'
     = (if String.eqb value "slim" then "slim"%string else "default"%string)
  /\ List.map callee calls = SkinObject.modelListeners s
  /\ Forall (fun c => arguments c = []) calls
  /\ (forall l, invocations l calls = registrations l (SkinObject.modelListeners s))
  /\ SkinObject.modelListeners s' = SkinObject.modelListeners s
  /\ s' = SkinObject.mk (SkinObject.object s) (SkinObject.head s)
            (SkinObject.modelListeners s) (SkinObject.slim s')
            (SkinObject._map s)
            (SkinObject.layer1Material s) (SkinObject.layer1MaterialBiased s)
            (SkinObject.layer2Material s) (SkinObject.layer2MaterialBiased s).
Proof.
  intros s' calls.
  assert (Hcalls : calls = List.map (fun listener => mkCall listener [])
                             (SkinObject.modelListeners s)).
  { subst calls. unfold SkinObject.set_modelType, forEach.
    cbn [snd SkinObject.modelListeners]. apply forEach_from_calls. }
  split; [|split; [|split; [|split; [|split; [|split]]]]].
  - subst s'. cbn [fst SkinObject.set_modelType SkinObject.slim].
    apply String.eqb_eq.
  - reflexivity.
  - rewrite Hcalls, map_map. cbn [callee]. apply map_id.
  - rewrite Hcalls. apply Forall_forall. intros c Hin.
    apply in_map_iff in Hin. destruct Hin as (l & <- & _). reflexivity.
  - intros l. rewrite Hcalls. apply invocations_map.
  - reflexivity.
  - reflexivity.
Qed.

(** ** The flying animation *)

Lemma clamp_unit (num : R) : 0 <= clamp num 0 1 <= 1.
Proof.
  unfold clamp.
  destruct (Rle_dec num 0); [lra|].
  destruct (Rge_dec num 1); lra.
Qed.

Lemma flying_t_positive (g : R) : g > 0 -> flying_t g = g * 20.
Proof. intros Hg. unfold flying_t. destruct (Rgt_dec g 0); [reflexivity|lra]. Qed.

Lemma flying_t_nonpositive (g : R) : g <= 0 -> flying_t g = 0.
Proof. intros Hg. unfold flying_t. destruct (Rgt_dec g 0); [lra|reflexivity]. Qed.

(** C7: a step of the flying animation takes [t = progress * 20] for a
    positive progress and [t = 0] otherwise, and
    [startProgress = clamp (t * t / 100) 0 1], which lies in [0, 1]: it is
    0 when [t * t / 100 <= 0], [t * t / 100] itself when that lies strictly
    between 0 and 1, and 1 when [t * t / 100 >= 1], which is the case from
    progress 0.5 on.  The step sets the pitch of the player to
    [startProgress * PI / 2] and the pitch of the head to [PI / 4] minus the
    pitch of the player when [startProgress > 0.5], to 0 otherwise. *)
Theorem flying_animate_pose
  (speed_ : R) (paused_ : bool) (progress_ : R)
  (player : PlayerObject.t) (delta : R) :
  let this := PlayerAnimation.mk speed_ paused_ progress_ FlyingAnimation in
  let t := flying_t progress_ in
  let startProgress := flying_startProgress progress_ in
  let player' := animate this player delta in
  let bodyPitch := ex (rotation (PlayerObject.object player')) in
  let headPitch :=
    ex (rotation (BodyPart.object (SkinObject.head (PlayerObject.skin player')))) in
  (progress_ > 0 -> t = progress_ * 20)
  /\ (~ progress_ > 0 -> t = 0 /\ startProgress = 0)
  /\ startProgress = clamp (t * t / 100) 0 1
  /\ 0 <= startProgress <= 1
  /\ bodyPitch = startProgress * (PI / 2)
  /\ (startProgress > 0.5 -> headPitch = PI / 4 - bodyPitch)
  /\ (~ startProgress > 0.5 -> headPitch = 0)
  /\ (t * t / 100 <= 0 -> startProgress = 0 /\ bodyPitch = 0 /\ headPitch = 0)
  /\ (0 < t * t / 100 < 1 ->
        startProgress = t * t / 100
        /\ bodyPitch = t * t / 100 * PI / 2)
  /\ (1 <= t * t / 100 ->
        startProgress = 1 /\ bodyPitch = PI / 2
        /\ headPitch = PI / 4 - PI / 2)
  /\ (0.5 <= progress_ -> 1 <= t * t / 100).
Proof.
  intros this t startProgress player' bodyPitch headPitch.
  assert (Hbody : bodyPitch = startProgress * PI / 2) by reflexivity.
  assert (Hhead : headPitch
                  = if Rgt_dec startProgress 0.5 then PI / 4 - bodyPitch else 0)
    by reflexivity.
  assert (Hsp : startProgress = clamp (t * t / 100) 0 1) by reflexivity.
  clearbody bodyPitch headPitch startProgress. clear player' this.
  split; [|split; [|split; [|split; [|split; [|split; [|split;
    [|split; [|split; [|split]]]]]]]]].
  - apply flying_t_positive.
  - intros Hg. assert (Ht : t = 0) by (apply flying_t_nonpositive; lra).
    split; [exact Ht|].
    rewrite Hsp, Ht.
    unfold clamp. destruct (Rle_dec (0 * 0 / 100) 0); [reflexivity|lra].
  - exact Hsp.
  - rewrite Hsp. apply clamp_unit.
  - rewrite Hbody. lra.
  - intros Hs. rewrite Hhead.
    destruct (Rgt_dec startProgress 0.5); [reflexivity|contradiction].
  - intros Hs. rewrite Hhead.
    destruct (Rgt_dec startProgress 0.5); [contradiction|reflexivity].
  - intros Hlow.
    assert (H0 : startProgress = 0).
    { rewrite Hsp. unfold clamp.
      destruct (Rle_dec (t * t / 100) 0); [reflexivity|contradiction]. }
    rewrite Hhead, Hbody, H0.
    split; [reflexivity|]. split; [lra|].
    destruct (Rgt_dec 0 0.5); lra.
  - intros [Hlo Hhi].
    assert (Hmid : startProgress = t * t / 100).
    { rewrite Hsp. unfold clamp.
      destruct (Rle_dec (t * t / 100) 0); [lra|].
      destruct (Rge_dec (t * t / 100) 1); [lra|reflexivity]. }
    rewrite Hbody, Hmid. split; reflexivity.
  - intros Hone.
    assert (H1 : startProgress = 1).
    { rewrite Hsp. unfold clamp.
      destruct (Rle_dec (t * t / 100) 0); [lra|].
      destruct (Rge_dec (t * t / 100) 1); [reflexivity|lra]. }
    rewrite Hhead, Hbody, H1.
    split; [reflexivity|]. split; [lra|].
    destruct (Rgt_dec 1 0.5); lra.
  - intros Hg. subst t. rewrite flying_t_positive by lra. nra.
Qed.

(** A quarter of a time unit into the flight: [t] is 5, [startProgress] is
    0.25 (neither bound of the clamp), the body is pitched by [PI / 8] and the
    head is still level.  At 0.4, [startProgress] is 0.64 and the head
    counters the body. *)
Lemma flying_animate_pose_midway :
  let early := animate (PlayerAnimation.mk 1 false 0.25 FlyingAnimation)
                       PlayerObject.new 0 in
  let late := animate (PlayerAnimation.mk 1 false 0.4 FlyingAnimation)
                      PlayerObject.new 0 in
  (flying_startProgress 0.25 = 0.25
   /\ ex (rotation (PlayerObject.object early)) = 0.25 * PI / 2
   /\ ex (rotation (BodyPart.object (SkinObject.head (PlayerObject.skin early)))) = 0)
  /\ (flying_startProgress 0.4 = 0.64
      /\ ex (rotation (PlayerObject.object late)) = 0.64 * PI / 2
      /\ ex (rotation (BodyPart.object (SkinObject.head (PlayerObject.skin late))))
         = PI / 4 - 0.64 * PI / 2).
Proof.
  intros early late.
  assert (Hq : flying_startProgress 0.25 = 0.25).
  { unfold flying_startProgress, flying_t, clamp.
    destruct (Rgt_dec 0.25 0); [|lra].
    destruct (Rle_dec (0.25 * 20 * (0.25 * 20) / 100) 0); [lra|].
    destruct (Rge_dec (0.25 * 20 * (0.25 * 20) / 100) 1); lra. }
  assert (Hl : flying_startProgress 0.4 = 0.64).
  { unfold flying_startProgress, flying_t, clamp.
    destruct (Rgt_dec 0.4 0); [|lra].
    destruct (Rle_dec (0.4 * 20 * (0.4 * 20) / 100) 0); [lra|].
    destruct (Rge_dec (0.4 * 20 * (0.4 * 20) / 100) 1); lra. }
  assert (He : ex (rotation (PlayerObject.object early))
               = flying_startProgress 0.25 * PI / 2) by reflexivity.
  assert (Heh : ex (rotation (BodyPart.object
                     (SkinObject.head (PlayerObject.skin early))))
                = if Rgt_dec (flying_startProgress 0.25) 0.5
                  then PI / 4 - flying_startProgress 0.25 * PI / 2 else 0)
    by reflexivity.
  assert (Hla : ex (rotation (PlayerObject.object late))
                = flying_startProgress 0.4 * PI / 2) by reflexivity.
  assert (Hlh : ex (rotation (BodyPart.object
                     (SkinObject.head (PlayerObject.skin late))))
                = if Rgt_dec (flying_startProgress 0.4) 0.5
                  then PI / 4 - flying_startProgress 0.4 * PI / 2 else 0)
    by reflexivity.
  rewrite Heh, He, Hlh, Hla, Hq, Hl.
  split; split; try reflexivity; split; try reflexivity.
  - destruct (Rgt_dec 0.25 0.5); [lra|reflexivity].
  - destruct (Rgt_dec 0.64 0.5); [reflexivity|lra].
Qed.

(** ** Progress *)

(** Against C8 as stated: an unpaused update with a negative elapsed time
    moves progress backwards, from 0 to -1 for a fresh animation. *)
Lemma progress_decreases_on_negative_delta :
  let this := PlayerAnimation.new IdleAnimation in
  let after := update this PlayerObject.new (-1) in
  paused this = false
  /\ progress this = 0
  /\ progress (fst after) = -1
  /\ ~ progress (fst after) > progress this.
Proof.
  cbv zeta.
  assert (H : progress (fst (update (PlayerAnimation.new IdleAnimation)
                               PlayerObject.new (-1))) = -1).
  { cbv [update PlayerAnimation.new paused fst set_progress progress speed]. lra. }
  split; [reflexivity|]. split; [reflexivity|]. split; [exact H|].
  rewrite H. cbv [PlayerAnimation.new progress]. lra.
Qed.

(** C8 (as the code has it): progress starts at 0, and an unpaused update
    whose scaled delta [deltaTime * speed] is not negative never leaves
    progress smaller than it was. *)
Theorem progress_never_decreases_on_nonnegative_delta
  (this : PlayerAnimation.t) (player : PlayerObject.t) (deltaTime : R) :
  paused this = false ->
  0 <= deltaTime * speed this ->
  progress (PlayerAnimation.new (subclass this)) = 0
  /\ progress (fst (update this player deltaTime)) >= progress this.
Proof.
  intros Hrun Hpos. split; [reflexivity|].
  unfold update. rewrite Hrun. cbn [fst set_progress progress]. lra.
Qed.

(** A running animation at double speed, progress 3, after half a time
    unit. *)
Lemma progress_never_decreases_on_nonnegative_delta_example :
  let this := PlayerAnimation.mk 2 false 3 RunningAnimation in
  (paused this = false /\ 0 <= (1 / 2) * speed this)
  /\ progress (PlayerAnimation.new (subclass this)) = 0
  /\ progress (fst (update this PlayerObject.new (1 / 2))) >= progress this.
Proof.
  intros this.
  assert (Hpos : 0 <= (1 / 2) * speed this) by (cbn [speed this]; lra).
  split; [split; [reflexivity|exact Hpos]|].
  exact (progress_never_decreases_on_nonnegative_delta this PlayerObject.new
           (1 / 2) eq_refl Hpos).
Defined.

(** ** Back equipment *)

(** Against C9 as stated: assigning ["cape"] and reading back yields
    [null], not ["cape"]. *)
Lemma backEquipment_cape_reads_null :
  let p := PlayerObject.set_backEquipment PlayerObject.new (Some "cape"%string) in
  PlayerObject.get_backEquipment p = None
  /\ PlayerObject.get_backEquipment p <> Some "cape"%string.
Proof.
  cbv zeta. split; [reflexivity|discriminate].
Qed.

(** C9 (as the code has it): [backEquipment] always reads [null] and
    assigning it leaves the player as it was; what was assigned is read back
    only when it was [null]. *)
Theorem backEquipment_is_constant_null
  (p : PlayerObject.t) (x : option BackEquipment) :
  PlayerObject.get_backEquipment (PlayerObject.set_backEquipment p x) = None
  /\ PlayerObject.set_backEquipment p x = p
  /\ PlayerObject.get_backEquipment p = None
  /\ (PlayerObject.get_backEquipment (PlayerObject.set_backEquipment p x) = x
      <-> x = None).
Proof.
  repeat split; intros H; [symmetry; exact H | rewrite H; reflexivity].
Qed.

(** ** Resetting the joints *)

(** C10: [resetJoints] sets the rotation of the head to (0, 0, 0) and
    changes nothing else: the root of the player (position, rotation,
    visibility), the ears, the skin group, the position, name and visibility
    of the head, its two layers, the listeners, the slim flag, the texture
    and the four materials are as before.  So the displacement and tilt an
    animation wrote to the root survive the reset, after any sequence of
    updates of any animation. *)
Theorem resetJoints_only_resets_head_rotation (p : PlayerObject.t) :
  let p' := PlayerObject.resetJoints p in
  let head := SkinObject.head (PlayerObject.skin p) in
  let head' := SkinObject.head (PlayerObject.skin p') in
  rotation (BodyPart.object head') = mkEuler 0 0 0
  /\ PlayerObject.object p' = PlayerObject.object p
  /\ PlayerObject.ears p' = PlayerObject.ears p
  /\ SkinObject.object (PlayerObject.skin p') = SkinObject.object (PlayerObject.skin p)
  /\ (position (BodyPart.object head') = position (BodyPart.object head)
      /\ visible (BodyPart.object head') = visible (BodyPart.object head)
      /\ name (BodyPart.object head') = name (BodyPart.object head))
  /\ (BodyPart.innerLayer head' = BodyPart.innerLayer head
      /\ BodyPart.outerLayer head' = BodyPart.outerLayer head)
  /\ (SkinObject.modelListeners (PlayerObject.skin p')
      = SkinObject.modelListeners (PlayerObject.skin p)
      /\ SkinObject.slim (PlayerObject.skin p') = SkinObject.slim (PlayerObject.skin p)
      /\ SkinObject._map (PlayerObject.skin p') = SkinObject._map (PlayerObject.skin p))
  /\ (SkinObject.layer1Material (PlayerObject.skin p')
      = SkinObject.layer1Material (PlayerObject.skin p)
      /\ SkinObject.layer1MaterialBiased (PlayerObject.skin p')
         = SkinObject.layer1MaterialBiased (PlayerObject.skin p)
      /\ SkinObject.layer2Material (PlayerObject.skin p')
         = SkinObject.layer2Material (PlayerObject.skin p)
      /\ SkinObject.layer2MaterialBiased (PlayerObject.skin p')
         = SkinObject.layer2MaterialBiased (PlayerObject.skin p))
  /\ (forall this deltas,
        let q := snd (run this p deltas) in
        PlayerObject.object (PlayerObject.resetJoints q) = PlayerObject.object q).
Proof.
  cbv zeta. repeat split.
Qed.

(** One step of the running animation on a fresh player drops the root to
    y = -1, and the root is still there after [resetJoints]. *)
Lemma running_displacement_survives_resetJoints :
  let q := snd (update (PlayerAnimation.new RunningAnimation) PlayerObject.new 1) in
  y (position (PlayerObject.object q)) = -1
  /\ y (position (PlayerObject.object (PlayerObject.resetJoints q))) = -1
  /\ y (position (PlayerObject.object PlayerObject.new)) = 0.
Proof.
  cbv zeta.
  assert (H : y (position (PlayerObject.object
                 (snd (update (PlayerAnimation.new RunningAnimation)
                         PlayerObject.new 1)))) = -1).
  { cbv [update PlayerAnimation.new paused snd animate subclass
         RunningAnimation_animate progress PlayerObject.with_object
         PlayerObject.object set_position_y set_position_x set_rotation_z
         set_position set_rotation position y].
    replace ((0 * 15 + PI * 0.5) * 2) with PI by lra.
    apply cos_PI. }
  split; [exact H|]. split; [exact H|reflexivity].
Qed.

(** * Further properties of the UV mapper *)

Lemma setUVs_array (box : BoxGeometry)
  (u v width height depth textureWidth textureHeight : R) :
  length (array (uv box)) = 48%nat ->
  array (uv (setUVs box u v width height depth textureWidth textureHeight))
  = newUVData u v width height depth textureWidth textureHeight.
Proof.
  intros Hbox. unfold setUVs; cbn [uv set_uv set_attr_needsUpdate array].
  apply BufferAttribute_set_full. rewrite Hbox. reflexivity.
Qed.

Lemma newUVData_unit (u v width height depth textureWidth textureHeight : R) :
  0 < width -> 0 < height -> 0 < depth -> 0 <= u -> 0 <= v ->
  u + 2 * width + 2 * depth <= textureWidth ->
  v + depth + height <= textureHeight ->
  Forall (fun c => 0 <= c <= 1)
         (newUVData u v width height depth textureWidth textureHeight).
Proof.
  intros Hw Hh Hd Hu Hv Hx Hy. rewrite newUVData_texels.
  apply normalize_unit; [lra|lra|].
  apply texel_corners_in_atlas; assumption.
Qed.

Lemma BoxGeometry_new_uv_length (w h d : R) :
  length (array (uv (BoxGeometry_new w h d))) = 48%nat.
Proof. reflexivity. Qed.

(** X1: The uv coordinates depend on the region and the atlas only through
    their proportions: a skin drawn at [k] times the resolution, with the
    region scaled alike, gets the same coordinates. *)
Theorem newUVData_scale_invariant
  (k u v width height depth textureWidth textureHeight : R) :
  k <> 0 -> textureWidth <> 0 -> textureHeight <> 0 ->
  newUVData (k * u) (k * v) (k * width) (k * height) (k * depth)
            (k * textureWidth) (k * textureHeight)
  = newUVData u v width height depth textureWidth textureHeight.
Proof.
  intros Hk Hw Hh.
  unfold newUVData, toFaceVertices, at_.
  cbn [nth push_faces push_uvs app v2_x v2_y].
  repeat (apply (f_equal2 cons); [field; auto|]).
  reflexivity.
Qed.

(** The head box at twice the resolution: a 16 x 16 x 16 region of a
    128 x 128 atlas. *)
Lemma newUVData_scale_invariant_example :
  (2 <> 0 /\ 64 <> 0)
  /\ newUVData (2 * 0) (2 * 0) (2 * 8) (2 * 8) (2 * 8) (2 * 64) (2 * 64)
     = newUVData 0 0 8 8 8 64 64.
Proof.
  assert (H2 : 2 <> 0) by lra. assert (H64 : 64 <> 0) by lra.
  split; [split; assumption|].
  exact (newUVData_scale_invariant 2 0 0 8 8 8 64 64 H2 H64 H64).
Defined.

(** X2: The six faces of a box with positive sizes get six rectangles of the
    atlas that overlap nowhere (they meet along edges only), each of positive
    width and height and inside the unwrap region
    [u, u + 2w + 2d] x [v, v + d + h]; every face is emitted as the corners of
    its rectangle, upper row first, the bottom face lower row first. *)
Theorem setUVs_faces_tile_region
  (u v width height depth textureWidth textureHeight : R) :
  0 < width -> 0 < height -> 0 < depth ->
  let rects := face_rects u v width height depth in
  newUVData u v width height depth textureWidth textureHeight
  = concat (List.map (fun ir => face_uv textureWidth textureHeight (fst ir) (snd ir))
                     (combine (seq 0 6) rects))
  /\ ForallOrdPairs apart rects
  /\ Forall (fun r => r_left r < r_right r /\ r_top r < r_bottom r
                      /\ u <= r_left r /\ r_right r <= u + 2 * width + 2 * depth
                      /\ v <= r_top r /\ r_bottom r <= v + depth + height)
            rects.
Proof.
  intros Hw Hh Hd rects. split; [reflexivity|]. split.
  - subst rects. unfold face_rects.
    repeat (apply FOP_cons;
            [repeat (apply Forall_cons;
                     [unfold apart; cbn [r_left r_right r_top r_bottom]; lra|]);
             apply Forall_nil|]).
    apply FOP_nil.
  - subst rects. unfold face_rects.
    repeat (apply Forall_cons; [cbn [r_left r_right r_top r_bottom]; lra|]).
    apply Forall_nil.
Qed.

(** The ears: a 6 x 6 x 1 region of the 14 x 7 atlas. *)
Lemma setUVs_faces_tile_region_ears :
  let rects := face_rects 0 0 6 6 1 in
  newUVData 0 0 6 6 1 14 7
  = concat (List.map (fun ir => face_uv 14 7 (fst ir) (snd ir))
                     (combine (seq 0 6) rects))
  /\ ForallOrdPairs apart rects
  /\ Forall (fun r => r_left r < r_right r /\ r_top r < r_bottom r
                      /\ 0 <= r_left r /\ r_right r <= 0 + 2 * 6 + 2 * 1
                      /\ 0 <= r_top r /\ r_bottom r <= 0 + 1 + 6)
            rects.
Proof.
  apply (setUVs_faces_tile_region 0 0 6 6 1 14 7); lra.
Defined.

(** X3: On a box with the 48 uv numbers of a [BoxGeometry], a second [setUVs]
    replaces what the first one wrote: only the last call counts; the sizes
    of the box and the length of its uv array are never changed. *)
Theorem setUVs_last_call_wins (box : BoxGeometry)
  (u v width height depth textureWidth textureHeight : R)
  (u' v' width' height' depth' textureWidth' textureHeight' : R) :
  length (array (uv box)) = 48%nat ->
  let once := setUVs box u' v' width' height' depth' textureWidth' textureHeight' in
  let twice :=
    setUVs (setUVs box u v width height depth textureWidth textureHeight)
           u' v' width' height' depth' textureWidth' textureHeight' in
  twice = once
  /\ length (array (uv once)) = 48%nat
  /\ (box_width once, box_height once, box_depth once)
     = (box_width box, box_height box, box_depth box).
Proof.
  intros Hbox once twice.
  assert (Honce : array (uv once) = newUVData u' v' width' height' depth'
                                      textureWidth' textureHeight')
    by (apply setUVs_array, Hbox).
  assert (Htwice : array (uv twice) = newUVData u' v' width' height' depth'
                                        textureWidth' textureHeight').
  { apply setUVs_array. rewrite setUVs_array by exact Hbox. reflexivity. }
  split; [|split].
  - destruct twice as [tw_ th_ td_ [ta tn]] eqn:Et, once as [ow oh od [oa on]] eqn:Eo.
    cbn [uv array] in Honce, Htwice.
    assert (Hd : (tw_, th_, td_, tn) = (ow, oh, od, on)).
    { change (let b := mkBoxGeometry tw_ th_ td_ (mkBufferAttribute ta tn) in
              (box_width b, box_height b, box_depth b, attr_needsUpdate (uv b))
              = let b := mkBoxGeometry ow oh od (mkBufferAttribute oa on) in
                (box_width b, box_height b, box_depth b, attr_needsUpdate (uv b))).
      rewrite <- Et, <- Eo. reflexivity. }
    inversion Hd; subst. reflexivity.
  - rewrite Honce. reflexivity.
  - reflexivity.
Qed.

(** A fresh 8 x 8 x 8 box mapped twice. *)
Lemma setUVs_last_call_wins_example :
  let box := BoxGeometry_new 8 8 8 in
  length (array (uv box)) = 48%nat
  /\ setUVs (setUVs box 32 0 8 8 8 64 64) 0 0 8 8 8 64 64
     = setUVs box 0 0 8 8 8 64 64
  /\ length (array (uv (setUVs box 0 0 8 8 8 64 64))) = 48%nat
  /\ (box_width (setUVs box 0 0 8 8 8 64 64),
      box_height (setUVs box 0 0 8 8 8 64 64),
      box_depth (setUVs box 0 0 8 8 8 64 64))
     = (box_width box, box_height box, box_depth box).
Proof.
  intros box. split; [reflexivity|].
  apply (setUVs_last_call_wins box 32 0 8 8 8 64 64 0 0 8 8 8 64 64).
  reflexivity.
Defined.

Lemma setUVs_fresh_box_valid (w h d u v width height depth textureWidth textureHeight : R) :
  0 < width -> 0 < height -> 0 < depth -> 0 <= u -> 0 <= v ->
  u + 2 * width + 2 * depth <= textureWidth ->
  v + depth + height <= textureHeight ->
  let g := setUVs (BoxGeometry_new w h d) u v width height depth
                  textureWidth textureHeight in
  length (array (uv g)) = 48%nat
  /\ Forall (fun c => 0 <= c <= 1) (array (uv g))
  /\ attr_needsUpdate (uv g) = true.
Proof.
  intros Hw Hh Hd Hu Hv Hx Hy g. subst g.
  rewrite setUVs_array by apply BoxGeometry_new_uv_length.
  split; [apply newUVData_length|]. split; [|reflexivity].
  apply newUVData_unit; assumption.
Qed.

(** X4: Every box the constructors build (both layers of the head, both ears)
    carries 48 uv numbers, all in [0, 1], flagged for upload: the regions
    hard-wired into the constructors fit their atlases. *)
Theorem constructed_geometry_uvs_valid :
  let p := PlayerObject.new in
  let head := SkinObject.head (PlayerObject.skin p) in
  Forall (fun g => length (array (uv g)) = 48%nat
                   /\ Forall (fun c => 0 <= c <= 1) (array (uv g))
                   /\ attr_needsUpdate (uv g) = true)
         [ geometry (BodyPart.innerLayer head);
           geometry (BodyPart.outerLayer head);
           geometry (EarsObject.rightEar (PlayerObject.ears p));
           geometry (EarsObject.leftEar (PlayerObject.ears p)) ].
Proof.
  intros p head.
  repeat apply Forall_cons; [| | | |apply Forall_nil].
  - apply (setUVs_fresh_box_valid 8 8 8 0 0 8 8 8 64 64); lra.
  - apply (setUVs_fresh_box_valid 9 9 9 32 0 8 8 8 64 64); lra.
  - apply (setUVs_fresh_box_valid 8 8 (4 / 3) 0 0 6 6 1 14 7); lra.
  - apply (setUVs_fresh_box_valid 8 8 (4 / 3) 0 0 6 6 1 14 7); lra.
Qed.

(** * Further properties of the skin and the ears *)

(** X5: Assigning [map] twice leaves the skin as the second assignment alone
    would; and an assignment touches nothing but [_map] and the [map] and
    [needsUpdate] of the four materials: their side, transparency, alpha test
    and polygon offset, the head, the listeners and the slim flag stay. *)
Theorem SkinObject_set_map_last_wins_and_frame
  (s : SkinObject.t) (X Y : option Texture) :
  let s' := SkinObject.set_map s Y in
  SkinObject.set_map (SkinObject.set_map s X) Y = s'
  /\ (SkinObject.head s' = SkinObject.head s
      /\ SkinObject.object s' = SkinObject.object s
      /\ SkinObject.modelListeners s' = SkinObject.modelListeners s
      /\ SkinObject.slim s' = SkinObject.slim s)
  /\ Forall2 (fun m' m =>
                m' = mkMaterial (side m) (transparent m) (alphaTest m)
                       (polygonOffset m) (polygonOffsetFactor m)
                       (polygonOffsetUnits m) Y true)
       [ SkinObject.layer1Material s'; SkinObject.layer1MaterialBiased s';
         SkinObject.layer2Material s'; SkinObject.layer2MaterialBiased s' ]
       [ SkinObject.layer1Material s; SkinObject.layer1MaterialBiased s;
         SkinObject.layer2Material s; SkinObject.layer2MaterialBiased s ].
Proof.
  cbv zeta. split; [reflexivity|]. split; [repeat split|].
  repeat (apply Forall2_cons; [reflexivity|]). apply Forall2_nil.
Qed.

(** X6: The texture of the ears reads back as assigned ([null] included), with
    the material flagged for upload and its other properties and both ear
    meshes untouched; a second assignment overrides the first; fresh ears
    read [null]; and assigning the texture of the skin does not change the
    texture of the ears. *)
Theorem EarsObject_map_round_trip
  (e : EarsObject.t) (p : PlayerObject.t) (X Y : option Texture) :
  let e' := EarsObject.set_map e X in
  EarsObject.get_map e' = X
  /\ needsUpdate (EarsObject.material e') = true
  /\ EarsObject.material e'
     = (let m := EarsObject.material e in
        mkMaterial (side m) (transparent m) (alphaTest m) (polygonOffset m)
          (polygonOffsetFactor m) (polygonOffsetUnits m) X true)
  /\ (EarsObject.rightEar e' = EarsObject.rightEar e
      /\ EarsObject.leftEar e' = EarsObject.leftEar e
      /\ EarsObject.object e' = EarsObject.object e)
  /\ EarsObject.set_map e' Y = EarsObject.set_map e Y
  /\ EarsObject.get_map EarsObject.new = None
  /\ EarsObject.get_map
       (PlayerObject.ears
          (PlayerObject.with_skin p (fun s => SkinObject.set_map s X)))
     = EarsObject.get_map (PlayerObject.ears p).
Proof.
  cbv zeta. repeat split.
Qed.

(** X7: Reading [modelType] after assigning it gives the assigned value exactly
    for the two model types, ["slim"] and ["default"]; any other string reads
    back as ["default"]; a fresh skin reads ["default"]; and assigning the
    value that is read changes nothing. *)
Theorem modelType_round_trip (s : SkinObject.t) (value : ModelType) :
  let s' := fst (SkinObject.set_modelType s value) in
  (SkinObject.get_modelType s' = value
   <-> value = "slim"%string \/ value = "default"%string)
  /\ (value <> "slim"%string -> SkinObject.get_modelType s' = "default"%string)
  /\ SkinObject.get_modelType SkinObject.new = "default"%string
  /\ fst (SkinObject.set_modelType s' (SkinObject.get_modelType s')) = s'.
Proof.
  intros s'. subst s'.
  unfold SkinObject.get_modelType, SkinObject.set_modelType.
  cbn [fst SkinObject.slim SkinObject.object SkinObject.head
       SkinObject.modelListeners SkinObject._map SkinObject.layer1Material
       SkinObject.layer1MaterialBiased SkinObject.layer2Material
       SkinObject.layer2MaterialBiased].
  destruct (String.eqb_spec value "slim") as [Heq|Hne].
  - split; [|split; [|split]].
    + split; [intros _; left; exact Heq|intros _; symmetry; exact Heq].
    + intros H; contradiction.
    + reflexivity.
    + reflexivity.
  - split; [|split; [|split]].
    + split.
      * intros H. right. symmetry. exact H.
      * intros [H|H]; [contradiction|symmetry; exact H].
    + reflexivity.
    + reflexivity.
    + reflexivity.
Qed.

(** * The layer switches *)

Import SkinGroup.

Lemma nth_error_middle {A : Type} (pre : list A) (c : A) (rest : list A) :
  nth_error (pre ++ c :: rest) (length pre) = Some c.
Proof. induction pre as [|a pre IH]; [reflexivity|exact IH]. Qed.

Lemma set_nth_middle {A : Type} (pre : list A) (c v : A) (rest : list A) :
  set_nth (length pre) v (pre ++ c :: rest) = pre ++ v :: rest.
Proof.
  induction pre as [|a pre IH]; [reflexivity|].
  cbn [length app set_nth]. rewrite IH. reflexivity.
Qed.

Lemma snoc_app {A : Type} (pre : list A) (c : A) (rest : list A) :
  pre ++ c :: rest = (pre ++ [c]) ++ rest.
Proof. rewrite <- app_assoc. reflexivity. Qed.

Lemma snoc_length {A : Type} (pre : list A) (c : A) :
  length (pre ++ [c]) = S (length pre).
Proof. rewrite length_app. cbn [length]. lia. Qed.

Section LayerSwitch.

Variable f : BodyPart.t -> BodyPart.t.
Hypothesis f_idempotent : forall part, f (f part) = f part.

Lemma with_head_twice (sk : SkinObject.t) :
  SkinObject.with_head (SkinObject.with_head sk f) f = SkinObject.with_head sk f.
Proof.
  unfold SkinObject.with_head.
  cbn [SkinObject.object SkinObject.head SkinObject.modelListeners
       SkinObject.slim SkinObject._map SkinObject.layer1Material
       SkinObject.layer1MaterialBiased SkinObject.layer2Material
       SkinObject.layer2MaterialBiased].
  rewrite f_idempotent. reflexivity.
Qed.

(** The loop over the references, started in the middle of the array. *)
Lemma forEach_part_from (rest : list Child) :
  forall (pre : list Child) (sk : SkinObject.t),
    fold_left (fun this part => with_part this part f)
              (filter_from instanceof_BodyPart (length pre) rest)
              (mk sk (pre ++ rest))
    = mk (if existsb is_head rest then SkinObject.with_head sk f else sk)
         (pre ++ List.map (map_parts f) rest).
Proof.
  induction rest as [|c rest IH]; intros pre sk.
  - reflexivity.
  - destruct c as [|part|o]; cbn [filter_from instanceof_BodyPart fold_left
                                   existsb is_head List.map map_parts orb].
    + unfold with_part at 2. cbn [children skin].
      rewrite nth_error_middle.
      rewrite (snoc_app pre HeadChild rest), <- (snoc_length pre HeadChild).
      rewrite IH, with_head_twice.
      rewrite <- app_assoc. destruct (existsb is_head rest); reflexivity.
    + unfold with_part at 2. cbn [children skin].
      rewrite nth_error_middle, set_nth_middle.
      rewrite (snoc_app pre (BodyPartChild (f part)) rest),
              <- (snoc_length pre (BodyPartChild (f part))).
      rewrite IH, <- app_assoc. reflexivity.
    + rewrite (snoc_app pre (ObjectChild o) rest),
              <- (snoc_length pre (ObjectChild o)).
      rewrite IH, <- app_assoc. reflexivity.
Qed.

Lemma forEach_part (this : SkinGroup.t) :
  fold_left (fun this part => with_part this part f) (getBodyParts this) this
  = on_parts f this.
Proof.
  destruct this as [sk cs]. unfold getBodyParts, on_parts. cbn [children skin].
  exact (forEach_part_from cs [] sk).
Qed.

End LayerSwitch.

Lemma set_innerLayer_visible_idempotent (value : bool) (part : BodyPart.t) :
  set_innerLayer_visible value (set_innerLayer_visible value part)
  = set_innerLayer_visible value part.
Proof. reflexivity. Qed.

Lemma set_outerLayer_visible_idempotent (value : bool) (part : BodyPart.t) :
  set_outerLayer_visible value (set_outerLayer_visible value part)
  = set_outerLayer_visible value part.
Proof. reflexivity. Qed.

Lemma setInnerLayerVisible_map (this : SkinGroup.t) (value : bool) :
  setInnerLayerVisible this value = on_parts (set_innerLayer_visible value) this.
Proof.
  apply forEach_part, set_innerLayer_visible_idempotent.
Qed.

Lemma setOuterLayerVisible_map (this : SkinGroup.t) (value : bool) :
  setOuterLayerVisible this value = on_parts (set_outerLayer_visible value) this.
Proof.
  apply forEach_part, set_outerLayer_visible_idempotent.
Qed.

Lemma head_child_exists (cs : list Child) (ref : nat) :
  nth_error cs ref = Some HeadChild -> existsb is_head cs = true.
Proof.
  intros H. apply existsb_exists. exists HeadChild.
  split; [eapply nth_error_In; exact H|reflexivity].
Qed.

Lemma existsb_is_head_map (g : BodyPart.t -> BodyPart.t) (cs : list Child) :
  existsb is_head (List.map (map_parts g) cs) = existsb is_head cs.
Proof.
  induction cs as [|c cs IH]; [reflexivity|].
  cbn [List.map existsb]. rewrite IH. destruct c; reflexivity.
Qed.

(** What a mapped write does to the part behind a reference. *)
Lemma part_at_on_parts (g : BodyPart.t -> BodyPart.t) (this : SkinGroup.t)
  (ref : nat) :
  part_at (on_parts g this) ref = option_map g (part_at this ref).
Proof.
  unfold part_at, on_parts. cbn [children skin]. rewrite nth_error_map.
  destruct (nth_error (children this) ref) as [[|part|o]|] eqn:E;
    cbn [option_map map_parts]; try reflexivity.
  rewrite (head_child_exists _ _ E). reflexivity.
Qed.

Lemma on_parts_compose (g h : BodyPart.t -> BodyPart.t) (this : SkinGroup.t) :
  on_parts g (on_parts h this) = on_parts (fun part => g (h part)) this.
Proof.
  unfold on_parts. cbn [children skin].
  rewrite existsb_is_head_map, map_map.
  f_equal.
  - destruct (existsb is_head (children this)); reflexivity.
  - apply map_ext. intros [|part|o]; reflexivity.
Qed.

Lemma on_parts_ext (g h : BodyPart.t -> BodyPart.t) (this : SkinGroup.t) :
  (forall part, g part = h part) -> on_parts g this = on_parts h this.
Proof.
  intros Hgh. unfold on_parts. f_equal.
  - destruct (existsb is_head (children this)); [|reflexivity].
    unfold SkinObject.with_head. rewrite Hgh. reflexivity.
  - apply map_ext. intros [|part|o]; cbn [map_parts]; [reflexivity| |reflexivity].
    rewrite Hgh. reflexivity.
Qed.

(** X8: [setInnerLayerVisible] and [setOuterLayerVisible] reach every body part
    among the children of the skin, the head included when it is a child:
    the named layer of each gets the given visibility, its other layer and its
    own transform stay; children of other classes, the number and order of
    the children, and a head that is not a child are left alone. *)
Theorem layer_switch_reaches_every_body_part
  (this : SkinGroup.t) (value : bool) (ref : nat) :
  let inner := setInnerLayerVisible this value in
  let outer := setOuterLayerVisible this value in
  (length (children inner) = length (children this)
   /\ length (children outer) = length (children this))
  /\ (forall part, part_at this ref = Some part ->
        exists part' part'',
          part_at inner ref = Some part' /\ part_at outer ref = Some part''
          /\ (visible (mesh_object (BodyPart.innerLayer part')) = value
              /\ BodyPart.outerLayer part' = BodyPart.outerLayer part
              /\ BodyPart.object part' = BodyPart.object part)
          /\ (visible (mesh_object (BodyPart.outerLayer part'')) = value
              /\ BodyPart.innerLayer part'' = BodyPart.innerLayer part
              /\ BodyPart.object part'' = BodyPart.object part))
  /\ (part_at this ref = None ->
        nth_error (children inner) ref = nth_error (children this) ref
        /\ nth_error (children outer) ref = nth_error (children this) ref)
  /\ (existsb is_head (children this) = false ->
        skin inner = skin this /\ skin outer = skin this)
  /\ (getBodyParts this = [] -> inner = this /\ outer = this).
Proof.
  intros inner outer. subst inner outer.
  split; [|split; [|split; [|split]]].
  - rewrite setInnerLayerVisible_map, setOuterLayerVisible_map.
    unfold on_parts. cbn [children]. rewrite !length_map. split; reflexivity.
  - intros part Hpart.
    exists (set_innerLayer_visible value part), (set_outerLayer_visible value part).
    rewrite setInnerLayerVisible_map, setOuterLayerVisible_map, !part_at_on_parts.
    rewrite Hpart. repeat split.
  - intros Hnone.
    rewrite setInnerLayerVisible_map, setOuterLayerVisible_map.
    unfold on_parts. cbn [children]. rewrite !nth_error_map.
    unfold part_at in Hnone.
    destruct (nth_error (children this) ref) as [[|part|o]|];
      try discriminate Hnone; split; reflexivity.
  - intros Hhead.
    rewrite setInnerLayerVisible_map, setOuterLayerVisible_map.
    unfold on_parts. rewrite Hhead. split; reflexivity.
  - intros Hnil. unfold setInnerLayerVisible, setOuterLayerVisible.
    rewrite Hnil. split; reflexivity.
Qed.

(** X9: The two switches compose as assignments do: of two calls of the same
    switch the later one decides, a repeated call changes nothing more, and
    the inner and the outer switch do not interfere, whatever their order. *)
Theorem layer_switches_compose (this : SkinGroup.t) (v w : bool) :
  setInnerLayerVisible (setInnerLayerVisible this v) w
  = setInnerLayerVisible this w
  /\ setOuterLayerVisible (setOuterLayerVisible this v) w
     = setOuterLayerVisible this w
  /\ setInnerLayerVisible (setInnerLayerVisible this v) v
     = setInnerLayerVisible this v
  /\ setOuterLayerVisible (setInnerLayerVisible this v) w
     = setInnerLayerVisible (setOuterLayerVisible this w) v.
Proof.
  repeat rewrite ?setInnerLayerVisible_map, ?setOuterLayerVisible_map.
  rewrite !on_parts_compose.
  repeat split; apply on_parts_ext; intros part; reflexivity.
Qed.

(** * Further properties of the animations *)

(** X10: [clamp] with its bounds in order: the result lies between them, a
    number already between them is returned as it is, clamping twice is
    clamping once, and a larger number never clamps to a smaller result.
    Whatever the bounds, the result is the number or one of the bounds. *)
Theorem clamp_between_bounds (num min max : R) :
  min <= max ->
  min <= clamp num min max <= max
  /\ (min <= num <= max -> clamp num min max = num)
  /\ (num <= min -> clamp num min max = min)
  /\ (max <= num -> clamp num min max = max)
  /\ clamp (clamp num min max) min max = clamp num min max
  /\ (forall num', num <= num' -> clamp num min max <= clamp num' min max).
Proof.
  intros Hmm. unfold clamp.
  repeat split.
  - destruct (Rle_dec num min); [lra|]. destruct (Rge_dec num max); lra.
  - destruct (Rle_dec num min); [lra|]. destruct (Rge_dec num max); lra.
  - intros [Hlo Hhi].
    destruct (Rle_dec num min); [lra|]. destruct (Rge_dec num max); lra.
  - intros Hlo. destruct (Rle_dec num min); [reflexivity|lra].
  - intros Hhi. destruct (Rle_dec num min); [lra|].
    destruct (Rge_dec num max); lra.
  - destruct (Rle_dec num min) as [H1|H1].
    + destruct (Rle_dec min min); [reflexivity|lra].
    + destruct (Rge_dec num max) as [H2|H2].
      * destruct (Rle_dec max min); [lra|].
        destruct (Rge_dec max max); lra.
      * destruct (Rle_dec num min); [lra|].
        destruct (Rge_dec num max); lra.
  - intros num' Hle.
    destruct (Rle_dec num min), (Rle_dec num' min); try lra;
      destruct (Rge_dec num max), (Rge_dec num' max); lra.
Qed.

(** Clamping 7 into the bounds 0 and 1, as the flying animation does. *)
Lemma clamp_between_bounds_example :
  0 <= 1
  /\ 0 <= clamp 7 0 1 <= 1
  /\ (0 <= 7 <= 1 -> clamp 7 0 1 = 7)
  /\ (7 <= 0 -> clamp 7 0 1 = 0)
  /\ (1 <= 7 -> clamp 7 0 1 = 1)
  /\ clamp (clamp 7 0 1) 0 1 = clamp 7 0 1
  /\ (forall num', 7 <= num' -> clamp 7 0 1 <= clamp num' 0 1).
Proof.
  assert (H : 0 <= 1) by lra.
  split; [exact H|]. exact (clamp_between_bounds 7 0 1 H).
Defined.

Lemma flying_startProgress_quadratic (g : R) :
  0 <= g <= 0.5 -> flying_startProgress g = 4 * g * g.
Proof.
  intros [H0 H1]. unfold flying_startProgress, flying_t, clamp.
  destruct (Rgt_dec g 0) as [Hg|Hg].
  - destruct (Rle_dec (g * 20 * (g * 20) / 100) 0) as [H|H]; [nra|].
    destruct (Rge_dec (g * 20 * (g * 20) / 100) 1) as [H'|H']; nra.
  - assert (g = 0) by lra. subst g.
    destruct (Rle_dec (0 * 0 / 100) 0); lra.
Qed.

Lemma flying_startProgress_done (g : R) :
  0.5 <= g -> flying_startProgress g = 1.
Proof.
  intros Hg. unfold flying_startProgress, flying_t, clamp.
  destruct (Rgt_dec g 0) as [H0|H0]; [|lra].
  destruct (Rle_dec (g * 20 * (g * 20) / 100) 0) as [H|H]; [nra|].
  destruct (Rge_dec (g * 20 * (g * 20) / 100) 1) as [H'|H']; nra.
Qed.

Lemma flying_startProgress_zero (g : R) :
  g <= 0 -> flying_startProgress g = 0.
Proof.
  intros Hg. unfold flying_startProgress, flying_t, clamp.
  destruct (Rgt_dec g 0) as [H0|H0]; [lra|].
  destruct (Rle_dec (0 * 0 / 100) 0); lra.
Qed.

Lemma flying_startProgress_monotone (g g' : R) :
  g <= g' -> flying_startProgress g <= flying_startProgress g'.
Proof.
  intros Hle.
  destruct (Rle_dec g 0) as [Hg|Hg].
  - rewrite (flying_startProgress_zero g Hg).
    apply (clamp_unit (flying_t g' * flying_t g' / 100)).
  - destruct (Rle_dec 0.5 g') as [Hg'|Hg'].
    + rewrite (flying_startProgress_done g' Hg').
      apply (clamp_unit (flying_t g * flying_t g / 100)).
    + rewrite (flying_startProgress_quadratic g) by lra.
      rewrite (flying_startProgress_quadratic g') by lra.
      nra.
Qed.

(** The pose [FlyingAnimation.animate] writes, from the progress alone. *)
Lemma flying_pose (s : R) (b : bool) (g : R) (player : PlayerObject.t) (delta : R) :
  let player' := animate (PlayerAnimation.mk s b g FlyingAnimation) player delta in
  ex (rotation (PlayerObject.object player')) = flying_startProgress g * PI / 2
  /\ ex (rotation (BodyPart.object (SkinObject.head (PlayerObject.skin player'))))
     = (if Rgt_dec (flying_startProgress g) 0.5
        then PI / 4 - flying_startProgress g * PI / 2 else 0).
Proof.
  split; reflexivity.
Qed.

(** X11: The flying stance is reached at progress 1/2 (the "0.5s" of the source
    comment): from there on the body is pitched by [PI / 2] and the head by
    [- PI / 4]; up to progress 0 the player stands upright; in between
    [startProgress] is [4 * progress^2]. *)
Theorem flying_stance_complete_at_half
  (s : R) (b : bool) (g : R) (player : PlayerObject.t) (delta : R) :
  let player' := animate (PlayerAnimation.mk s b g FlyingAnimation) player delta in
  let bodyPitch := ex (rotation (PlayerObject.object player')) in
  let headPitch :=
    ex (rotation (BodyPart.object (SkinObject.head (PlayerObject.skin player')))) in
  (0.5 <= g ->
     flying_startProgress g = 1 /\ bodyPitch = PI / 2 /\ headPitch = - PI / 4)
  /\ (g <= 0 -> flying_startProgress g = 0 /\ bodyPitch = 0 /\ headPitch = 0)
  /\ (0 <= g <= 0.5 -> flying_startProgress g = 4 * g * g).
Proof.
  intros player' bodyPitch headPitch.
  destruct (flying_pose s b g player delta) as [Hbody Hhead].
  fold player' in Hbody, Hhead. fold bodyPitch in Hbody. fold headPitch in Hhead.
  split; [|split].
  - intros Hg. pose proof (flying_startProgress_done g Hg) as Hsp.
    rewrite Hsp in Hbody, Hhead.
    split; [exact Hsp|]. split; [lra|].
    destruct (Rgt_dec 1 0.5); lra.
  - intros Hg. pose proof (flying_startProgress_zero g Hg) as Hsp.
    rewrite Hsp in Hbody, Hhead.
    split; [exact Hsp|]. split; [lra|].
    destruct (Rgt_dec 0 0.5); lra.
  - apply flying_startProgress_quadratic.
Qed.

(** X12: Flying only ever leans forward: [startProgress] never decreases as
    progress grows, the pitch of the body stays within [0, PI / 2] and the
    counter-pitch of the head within [- PI / 4, 0]. *)
Theorem flying_pose_ranges
  (s : R) (b : bool) (g : R) (player : PlayerObject.t) (delta : R) :
  let player' := animate (PlayerAnimation.mk s b g FlyingAnimation) player delta in
  let bodyPitch := ex (rotation (PlayerObject.object player')) in
  let headPitch :=
    ex (rotation (BodyPart.object (SkinObject.head (PlayerObject.skin player')))) in
  (forall g', g <= g' -> flying_startProgress g <= flying_startProgress g')
  /\ 0 <= bodyPitch <= PI / 2
  /\ - PI / 4 <= headPitch <= 0.
Proof.
  intros player' bodyPitch headPitch.
  destruct (flying_pose s b g player delta) as [Hbody Hhead].
  fold player' in Hbody, Hhead. fold bodyPitch in Hbody. fold headPitch in Hhead.
  pose proof (clamp_unit (flying_t g * flying_t g / 100)) as Hsp.
  fold (flying_startProgress g) in Hsp.
  pose proof PI_RGT_0 as Hpi.
  split; [intros g'; apply flying_startProgress_monotone|]. split.
  - rewrite Hbody. nra.
  - rewrite Hhead. destruct (Rgt_dec (flying_startProgress g) 0.5); nra.
Qed.

(** The pose [WalkingAnimation.animate] writes, from the progress alone. *)
Lemma walking_pose (s : R) (b : bool) (g : R) (headBobbing : bool)
  (player : PlayerObject.t) (delta : R) :
  animate (PlayerAnimation.mk s b g (WalkingAnimation headBobbing)) player delta
  = PlayerObject.with_head_object player
      (fun o => set_rotation o
         (mkEuler (if headBobbing then sin (g * 8 / 5) * 0.1 else 0)
                  (if headBobbing then sin (g * 8 / 4) * 0.2 else 0)
                  (ez (rotation o)))).
Proof.
  destruct headBobbing; reflexivity.
Qed.

(** X13: Walking sways the head and nothing else: the yaw stays within 0.2 and
    the pitch within 0.1 of the rest position, both are 0 at progress 0 and
    whenever head bobbing is off, and the roll of the head, its position and
    layers, and the root of the player are not written. *)
Theorem walking_head_sway_bounded
  (s : R) (b : bool) (g : R) (headBobbing : bool)
  (player : PlayerObject.t) (delta : R) :
  let player' :=
    animate (PlayerAnimation.mk s b g (WalkingAnimation headBobbing)) player delta in
  let head := BodyPart.object (SkinObject.head (PlayerObject.skin player)) in
  let head' := BodyPart.object (SkinObject.head (PlayerObject.skin player')) in
  (- 0.2 <= ey (rotation head') <= 0.2 /\ - 0.1 <= ex (rotation head') <= 0.1)
  /\ (headBobbing = true ->
        ey (rotation head') = sin (2 * g) * 0.2
        /\ ex (rotation head') = sin (8 * g / 5) * 0.1)
  /\ (headBobbing = false \/ g = 0 ->
        ey (rotation head') = 0 /\ ex (rotation head') = 0)
  /\ (ez (rotation head') = ez (rotation head)
      /\ position head' = position head
      /\ visible head' = visible head)
  /\ PlayerObject.object player' = PlayerObject.object player
  /\ same_frame player' player.
Proof.
  intros player' head head'. subst player' head head'.
  rewrite walking_pose.
  cbn [PlayerObject.with_head_object PlayerObject.with_skin PlayerObject.skin
       SkinObject.with_head SkinObject.head BodyPart.with_object BodyPart.object
       set_rotation rotation ex ey ez position visible PlayerObject.object].
  split; [|split; [|split; [|split; [|split]]]].
  - destruct headBobbing.
    + pose proof (SIN_bound (g * 8 / 4)). pose proof (SIN_bound (g * 8 / 5)). lra.
    + lra.
  - intros ->. split.
    + replace (g * 8 / 4) with (2 * g) by lra. reflexivity.
    + replace (g * 8 / 5) with (8 * g / 5) by lra. reflexivity.
  - intros [->| ->]; [split; reflexivity|].
    replace (0 * 8 / 4) with 0 by lra. replace (0 * 8 / 5) with 0 by lra.
    rewrite sin_0. destruct headBobbing; split; lra.
  - repeat split.
  - reflexivity.
  - repeat split.
Qed.





(** * Sequences of updates *)

Lemma run_app (this : PlayerAnimation.t) (player : PlayerObject.t)
  (ds1 ds2 : list R) :
  run this player (ds1 ++ ds2)
  = run (fst (run this player ds1)) (snd (run this player ds1)) ds2.
Proof.
  revert this player.
  induction ds1 as [|d ds1 IH]; intros this player; cbn [app run fst snd].
  - reflexivity.
  - apply IH.
Qed.

Lemma update_unpaused (s g : R) (c : AnimationClass) (player : PlayerObject.t)
  (deltaTime : R) :
  update (PlayerAnimation.mk s false g c) player deltaTime
  = (PlayerAnimation.mk s false (g + deltaTime * s) c,
     animate (PlayerAnimation.mk s false g c) player (deltaTime * s)).
Proof. reflexivity. Qed.

Lemma run_fields (this : PlayerAnimation.t) (player : PlayerObject.t)
  (deltas : list R) :
  speed (fst (run this player deltas)) = speed this
  /\ paused (fst (run this player deltas)) = paused this
  /\ subclass (fst (run this player deltas)) = subclass this.
Proof.
  revert this player.
  induction deltas as [|d ds IH]; intros this player; cbn [run].
  - repeat split.
  - destruct (IH (fst (update this player d)) (snd (update this player d)))
      as (Hs & Hp & Hc).
    rewrite Hs, Hp, Hc. unfold update.
    destruct (paused this) eqn:E;
      cbn [fst set_progress speed paused subclass]; repeat split; exact E.
Qed.

Lemma run_progress (s g : R) (c : AnimationClass) (player : PlayerObject.t)
  (deltas : list R) :
  progress (fst (run (PlayerAnimation.mk s false g c) player deltas))
  = fold_left (fun acc deltaTime => acc + deltaTime * s) deltas g.
Proof.
  revert g player.
  induction deltas as [|d ds IH]; intros g player; cbn [run fold_left].
  - reflexivity.
  - rewrite update_unpaused. cbn [fst snd]. apply IH.
Qed.

Lemma accumulate_nonnegative (s : R) (deltas : list R) :
  Forall (fun deltaTime => 0 <= deltaTime * s) deltas ->
  forall g, g <= fold_left (fun acc deltaTime => acc + deltaTime * s) deltas g.
Proof.
  induction 1 as [|d ds Hd _ IH]; intros g; cbn [fold_left].
  - lra.
  - apply Rle_trans with (g + d * s); [lra|apply IH].
Qed.

(** X17: An unpaused animation accumulates the scaled deltas in the order of
    the calls: after a sequence of updates progress is
    [((progress + d1 * speed) + d2 * speed) + ...], whatever the class of the
    animation and whatever player it is played on; when no scaled delta is
    negative, progress is never below where it started; speed, pause flag and
    class are never written; and updating over two sequences in a row is
    updating over their concatenation. *)
Theorem run_accumulates_in_call_order
  (s g : R) (c : AnimationClass) (player : PlayerObject.t) (ds ds' : list R) :
  let this := PlayerAnimation.mk s false g c in
  let after := run this player ds in
  progress (fst after)
  = fold_left (fun acc deltaTime => acc + deltaTime * s) ds g
  /\ (forall c' player',
        progress (fst (run (PlayerAnimation.mk s false g c') player' ds))
        = progress (fst after))
  /\ (Forall (fun deltaTime => 0 <= deltaTime * s) ds -> g <= progress (fst after))
  /\ (speed (fst after) = s /\ paused (fst after) = false
      /\ subclass (fst after) = c)
  /\ run (fst after) (snd after) ds' = run this player (ds ++ ds').
Proof.
  intros this after. subst this after.
  split; [apply run_progress|]. split; [|split; [|split]].
  - intros c' player'. rewrite !run_progress. reflexivity.
  - intros Hds. rewrite run_progress. apply accumulate_nonnegative, Hds.
  - exact (run_fields (PlayerAnimation.mk s false g c) player ds).
  - symmetry. apply run_app.
Qed.

(** A later pose of a shipped animation overwrites an earlier one of the
    same class completely. *)
Lemma animate_overwrites (a1 a2 : PlayerAnimation.t) (player : PlayerObject.t)
  (d1 d2 : R) :
  concrete (subclass a1) = true ->
  subclass a2 = subclass a1 ->
  animate a2 (animate a1 player d1) d2 = animate a2 player d2.
Proof.
  intros Hc Hs. unfold animate. rewrite Hs.
  destruct (subclass a1) as [fn| |headBobbing| |]; [discriminate Hc| | | |].
  - reflexivity.
  - destruct headBobbing; reflexivity.
  - reflexivity.
  - reflexivity.
Qed.

Lemma run_pose_overwritten (a : PlayerAnimation.t) (deltas : list R) :
  forall (this : PlayerAnimation.t) (player : PlayerObject.t) (d : R),
    concrete (subclass this) = true ->
    subclass a = subclass this ->
    animate a (snd (run this player deltas)) d = animate a player d.
Proof.
  induction deltas as [|d0 ds IH]; intros this player d Hc Hs; cbn [run].
  - reflexivity.
  - assert (Hu : subclass (fst (update this player d0)) = subclass this).
    { unfold update. destruct (paused this); reflexivity. }
    rewrite IH; [|rewrite Hu; exact Hc|rewrite Hu; exact Hs].
    unfold update. destruct (paused this); cbn [snd]; [reflexivity|].
    apply animate_overwrites; assumption.
Qed.

Lemma run_last_pose (s g : R) (c : AnimationClass) (player : PlayerObject.t)
  (ds : list R) (last : R) :
  concrete c = true ->
  let this := PlayerAnimation.mk s false g c in
  snd (run this player (ds ++ [last]))
  = animate (fst (run this player ds)) player 0.
Proof.
  intros Hc this.
  destruct (run_fields this player ds) as (_ & Hp & Hs).
  cbn [paused subclass this] in Hp, Hs.
  rewrite run_app. cbn [run]. unfold update. rewrite Hp. cbn [snd].
  rewrite (animate_progress_only (fst (run this player ds))
             (fst (run this player ds)) _ 0 (last * speed (fst (run this player ds))));
    [|rewrite Hs; exact Hc|reflexivity|reflexivity].
  apply run_pose_overwritten; [exact Hc|exact Hs].
Qed.

(** X18: For a shipped animation that is not paused, the player after a
    sequence of updates is the initial player with the pose of the progress
    the animation had reached before the last update: the last delta and the
    poses written on the way do not matter, and two sequences that reach the
    same progress before their last update end in the same player. *)
Theorem pose_follows_progress_before_last_update
  (s g : R) (c : AnimationClass) (player : PlayerObject.t)
  (ds : list R) (last : R) :
  concrete c = true ->
  let this := PlayerAnimation.mk s false g c in
  snd (run this player (ds ++ [last]))
  = animate (fst (run this player ds)) player 0
  /\ (forall last',
        snd (run this player (ds ++ [last']))
        = snd (run this player (ds ++ [last])))
  /\ (forall ds' last',
        progress (fst (run this player ds')) = progress (fst (run this player ds)) ->
        snd (run this player (ds' ++ [last']))
        = snd (run this player (ds ++ [last]))).
Proof.
  intros Hc this. subst this.
  assert (L : forall ds0 last0,
             snd (run (PlayerAnimation.mk s false g c) player (ds0 ++ [last0]))
             = animate (fst (run (PlayerAnimation.mk s false g c) player ds0))
                       player 0)
    by (intros ds0 last0; apply (run_last_pose s g c player ds0 last0 Hc)).
  split; [|split].
  - apply L.
  - intros last'. rewrite !L. reflexivity.
  - intros ds' last' Hprogress. rewrite !L.
    destruct (run_fields (PlayerAnimation.mk s false g c) player ds)
      as (_ & _ & Hs).
    destruct (run_fields (PlayerAnimation.mk s false g c) player ds')
      as (_ & _ & Hs').
    apply animate_progress_only.
    + rewrite Hs. exact Hc.
    + rewrite Hs, Hs'. reflexivity.
    + exact Hprogress.
Qed.

(** A walk updated over 1 and 2 time units, then once more. *)
Lemma pose_follows_progress_before_last_update_example :
  let this := PlayerAnimation.mk 1 false 0 (WalkingAnimation true) in
  concrete (WalkingAnimation true) = true
  /\ snd (run this PlayerObject.new ([1; 2] ++ [5]))
     = animate (fst (run this PlayerObject.new [1; 2])) PlayerObject.new 0
  /\ (forall last',
        snd (run this PlayerObject.new ([1; 2] ++ [last']))
        = snd (run this PlayerObject.new ([1; 2] ++ [5])))
  /\ (forall ds' last',
        progress (fst (run this PlayerObject.new ds'))
        = progress (fst (run this PlayerObject.new [1; 2])) ->
        snd (run this PlayerObject.new (ds' ++ [last']))
        = snd (run this PlayerObject.new ([1; 2] ++ [5]))).
Proof.
  intros this. split; [reflexivity|].
  exact (pose_follows_progress_before_last_update 1 0 (WalkingAnimation true)
           PlayerObject.new [1; 2] 5 eq_refl).
Defined.

Lemma same_frame_refl (p : PlayerObject.t) : same_frame p p.
Proof. repeat split. Qed.

Lemma same_frame_trans (p q r : PlayerObject.t) :
  same_frame p q -> same_frame q r -> same_frame p r.
Proof.
  intros (H1 & H2 & H3 & H4) (K1 & K2 & K3 & K4).
  repeat split; etransitivity; eassumption.
Qed.

Lemma animate_same_frame (this : PlayerAnimation.t) (player : PlayerObject.t)
  (delta : R) :
  concrete (subclass this) = true ->
  same_frame (animate this player delta) player.
Proof.
  intros Hc. unfold animate.
  destruct (subclass this) as [fn| |headBobbing| |]; [discriminate Hc| | | |].
  - apply same_frame_refl.
  - destruct headBobbing; repeat split.
  - repeat split.
  - repeat split.
Qed.

Lemma update_same_frame (this : PlayerAnimation.t) (player : PlayerObject.t)
  (deltaTime : R) :
  concrete (subclass this) = true ->
  same_frame (snd (update this player deltaTime)) player.
Proof.
  intros Hc. unfold update. destruct (paused this); cbn [snd].
  - apply same_frame_refl.
  - apply animate_same_frame, Hc.
Qed.

(** X19: The shipped animations write the position and rotation of the root and
    the rotation of the head, and nothing else: after any sequence of
    updates the ears, the name and visibility of the root, the materials,
    texture, listeners and slim flag of the skin, and the position,
    visibility and layers of the head are as before. The idle animation
    writes nothing at all. *)
Theorem shipped_animations_write_pose_only
  (this : PlayerAnimation.t) (player : PlayerObject.t) (deltas : list R) :
  concrete (subclass this) = true ->
  same_frame (snd (run this player deltas)) player
  /\ (subclass this = IdleAnimation -> snd (run this player deltas) = player).
Proof.
  intros Hc. split.
  - revert this player Hc.
    induction deltas as [|d ds IH]; intros this player Hc; cbn [run].
    + apply same_frame_refl.
    + apply same_frame_trans with (q := snd (update this player d)).
      * apply IH. unfold update.
        destruct (paused this); cbn [fst subclass set_progress]; exact Hc.
      * apply update_same_frame, Hc.
  - intros Hidle. clear Hc. revert this player Hidle.
    induction deltas as [|d ds IH]; intros this player Hidle; cbn [run].
    + reflexivity.
    + assert (Hu : snd (update this player d) = player).
      { unfold update, animate. rewrite Hidle. destruct (paused this); reflexivity. }
      rewrite IH.
      * exact Hu.
      * unfold update.
        destruct (paused this); cbn [fst subclass set_progress]; exact Hidle.
Qed.

(** A flying animation updated three times on a fresh player. *)
Lemma shipped_animations_write_pose_only_example :
  let this := PlayerAnimation.new FlyingAnimation in
  concrete (subclass this) = true
  /\ same_frame (snd (run this PlayerObject.new [1; 2; 3])) PlayerObject.new
  /\ (subclass this = IdleAnimation ->
        snd (run this PlayerObject.new [1; 2; 3]) = PlayerObject.new).
Proof.
  intros this. split; [reflexivity|].
  exact (shipped_animations_write_pose_only this PlayerObject.new [1; 2; 3] eq_refl).
Defined.

Lemma run_paused (this : PlayerAnimation.t) (player : PlayerObject.t)
  (deltas : list R) :
  paused this = true -> run this player deltas = (this, player).
Proof.
  intros Hp. induction deltas as [|d ds IH]; cbn [run]; [reflexivity|].
  rewrite (update_paused _ _ d Hp). exact IH.
Qed.

(** X20: Pausing composes with updating: updates made while the animation is
    paused leave no trace, so updating, pausing, updating, resuming and
    updating again ends in the state the first and the last updates alone
    would have produced. *)
Theorem pause_then_resume_skips_updates
  (this : PlayerAnimation.t) (player : PlayerObject.t) (ds1 ds2 ds3 : list R) :
  paused this = false ->
  let r1 := run this player ds1 in
  let r2 := run (set_paused (fst r1) true) (snd r1) ds2 in
  let r3 := run (set_paused (fst r2) false) (snd r2) ds3 in
  r2 = (set_paused (fst r1) true, snd r1)
  /\ r3 = run this player (ds1 ++ ds3).
Proof.
  intros Hp r1 r2 r3.
  assert (H2 : r2 = (set_paused (fst r1) true, snd r1))
    by (apply run_paused; reflexivity).
  split; [exact H2|].
  subst r3. rewrite H2. cbn [fst snd]. rewrite run_app. fold r1.
  f_equal.
  destruct (run_fields this player ds1) as (_ & Hp1 & _). fold r1 in Hp1.
  rewrite Hp in Hp1.
  destruct (fst r1) as [s b g c]. cbn [paused] in Hp1. subst b. reflexivity.
Qed.

(** A running animation updated, paused over two updates, and resumed. *)
Lemma pause_then_resume_skips_updates_example :
  let this := PlayerAnimation.new RunningAnimation in
  let r1 := run this PlayerObject.new [1] in
  let r2 := run (set_paused (fst r1) true) (snd r1) [5; 6] in
  let r3 := run (set_paused (fst r2) false) (snd r2) [2] in
  paused this = false
  /\ r2 = (set_paused (fst r1) true, snd r1)
  /\ r3 = run this PlayerObject.new ([1] ++ [2]).
Proof.
  intros this r1 r2 r3. split; [reflexivity|].
  exact (pause_then_resume_skips_updates this PlayerObject.new [1] [5; 6] [2]
           eq_refl).
Defined.

Lemma animate_ignores_speed (s s' : R) (b b' : bool) (g : R) (c : AnimationClass)
  (player : PlayerObject.t) (delta : R) :
  animate (PlayerAnimation.mk s b g c) player delta
  = animate (PlayerAnimation.mk s' b' g c) player delta.
Proof. destruct c; reflexivity. Qed.

(** X21: Speed scales time and nothing else: an update at speed [s] over a time
    [d] poses the player and advances progress exactly as an update at speed
    1 over the time [s * d], for every class of animation; at speed 0 progress
    stands still while the pose is still written. *)
Theorem speed_scales_elapsed_time
  (s g d : R) (c : AnimationClass) (player : PlayerObject.t) :
  let scaled := update (PlayerAnimation.mk s false g c) player d in
  let unit := update (PlayerAnimation.mk 1 false g c) player (s * d) in
  let still := update (PlayerAnimation.mk 0 false g c) player d in
  snd scaled = snd unit
  /\ progress (fst scaled) = progress (fst unit)
  /\ progress (fst still) = g
  /\ snd still = animate (PlayerAnimation.mk 0 false g c) player 0.
Proof.
  cbv zeta. rewrite !update_unpaused. cbn [fst snd progress].
  replace (s * d * 1) with (d * s) by lra.
  replace (d * 0) with 0 by lra.
  split; [apply animate_ignores_speed|]. split; [reflexivity|].
  split; [lra|reflexivity].
Qed.

(** X22: [resetJoints] composes with the animations as follows: resetting twice
    is resetting once; a reset after any walk gives the player a reset
    without the walk would have given (walking writes nothing a reset does not
    clear); and a reset commutes with any run (running never writes what a
    reset clears). *)
Theorem resetJoints_against_animations
  (s : R) (b : bool) (g : R) (headBobbing : bool)
  (player : PlayerObject.t) (deltas : list R) :
  let walk := PlayerAnimation.mk s b g (WalkingAnimation headBobbing) in
  let dash := PlayerAnimation.mk s b g RunningAnimation in
  PlayerObject.resetJoints (PlayerObject.resetJoints player)
  = PlayerObject.resetJoints player
  /\ PlayerObject.resetJoints (snd (run walk player deltas))
     = PlayerObject.resetJoints player
  /\ PlayerObject.resetJoints (snd (run dash player deltas))
     = snd (run dash (PlayerObject.resetJoints player) deltas).
Proof.
  cbv zeta. split; [reflexivity|]. split.
  - revert g player.
    induction deltas as [|d ds IH]; intros g player; cbn [run]; [reflexivity|].
    destruct b.
    + rewrite update_paused by reflexivity. cbn [fst snd]. apply IH.
    + rewrite update_unpaused. cbn [fst snd]. rewrite IH.
      destruct headBobbing; reflexivity.
  - revert g player.
    induction deltas as [|d ds IH]; intros g player; cbn [run]; [reflexivity|].
    destruct b.
    + rewrite !update_paused by reflexivity. cbn [fst snd]. apply IH.
    + rewrite !update_unpaused. cbn [fst snd]. rewrite IH.
      reflexivity.
Qed.
